(** * iobroker-dev-server: source maps, file mirroring and request routing

    A shallow embedding of the three core pieces of [src/index.ts]:
    - [addSourcemap], [patchSourcemap] and [createIdentitySourcemap]
      (source-map production),
    - the chokidar handlers installed by [startFileSync] together with
      [syncFile] (mirroring of the working tree), and
    - the two proxy routes registered by [runServer].

    Code that belongs to Node or to npm packages ([path], [JSON], acorn,
    source-map, http-proxy-middleware) is not part of the repository; it
    enters as the fields of a type class or as section variables.  What
    source-map serializes, and what the matcher and the rewriter of
    http-proxy-middleware do with the globs and the rule of [runServer], is
    written out.  The file system is a finite map from paths to nodes. *)

From Stdlib Require Import Ascii String List Bool Arith NArith ZArith Lia.
From stdpp Require Import base option strings list gmap.

Local Open Scope string_scope.
Set Warnings "-register-all".

(** ** JavaScript strings *)

Definition LF : string := String "010"%char EmptyString.
Definition CR : string := String "013"%char EmptyString.
Definition CRLF : string := CR +:+ LF.
(** U+2028 and U+2029 in UTF-8. *)
Definition LS : string :=
  String "226"%char (String "128"%char (String "168"%char EmptyString)).
Definition PS : string :=
  String "226"%char (String "128"%char (String "169"%char EmptyString)).
Definition backslash : ascii := "092"%char.

(** [s.startsWith(p)] *)
Fixpoint startsWith (s p : string) : bool :=
  match p, s with
  | EmptyString, _ => true
  | String _ _, EmptyString => false
  | String a p', String b s' => Ascii.eqb a b && startsWith s' p'
  end.

(** [s.endsWith(suffix)]: some tail of [s] is [suffix]. *)
Fixpoint endsWith (s suffix : string) : bool :=
  String.eqb s suffix ||
  match s with
  | EmptyString => false
  | String _ s' => endsWith s' suffix
  end.

(** [s.match(/sub/)] for a literal [sub], as a test: [sub] occurs in [s]. *)
Fixpoint contains (s sub : string) : bool :=
  startsWith s sub ||
  match s with
  | EmptyString => false
  | String _ s' => contains s' sub
  end.

(** [s.replace(/\\/g, '/')] *)
Fixpoint replaceBackslashes (s : string) : string :=
  match s with
  | EmptyString => EmptyString
  | String c s' =>
      String (if Ascii.eqb c backslash then "/"%char else c) (replaceBackslashes s')
  end.

(** [s] without the prefix [p], when it has it. *)
Fixpoint stripPrefix (p s : string) : option string :=
  match p, s with
  | EmptyString, _ => Some s
  | String _ _, EmptyString => None
  | String a p', String b s' => if Ascii.eqb a b then stripPrefix p' s' else None
  end.

(** [array.includes(x)] on an array of strings. *)
Definition includes (l : list string) (x : string) : bool := bool_decide (x ∈ l).

(** *** The regular expression [/(\/\/\# sourceMappingURL=).+/]

    [.] matches any character except the line terminators LF, CR, U+2028 and
    U+2029; [.+] is greedy, so it takes the rest of the line. *)

Definition sourceMappingURL : string := "//# sourceMappingURL=".

Definition lineTerminatorAt (s : string) : bool :=
  startsWith s LF || startsWith s CR || startsWith s LS || startsWith s PS.

(** The longest prefix matched by [.*], and what follows it. *)
Fixpoint dotStar (s : string) : string * string :=
  match s with
  | EmptyString => (EmptyString, EmptyString)
  | String c s' =>
      if lineTerminatorAt s then (EmptyString, s)
      else let (run, rest) := dotStar s' in (String c run, rest)
  end.

(** The expression matched at the start of [s]: the text of [.+] and the
    text after the match. *)
Definition matchReferenceHere (s : string) : option (string * string) :=
  match stripPrefix sourceMappingURL s with
  | None => None
  | Some tail =>
      match dotStar tail with
      | (EmptyString, _) => None
      | (run, rest) => Some (run, rest)
      end
  end.

(** Leftmost match: the text before it, the text of [.+], the text after. *)
Fixpoint searchReference (s : string) : option (string * string * string) :=
  match matchReferenceHere s with
  | Some (run, rest) => Some (EmptyString, run, rest)
  | None =>
      match s with
      | EmptyString => None
      | String c s' =>
          match searchReference s' with
          | Some (before, run, rest) => Some (String c before, run, rest)
          | None => None
          end
      end
  end.

(** The replacement text of [String.prototype.replace] for a pattern with
    one capture group: [$$], [$&], [$`], [$'], [$1] and [$01] are expanded,
    every other [$] stands for itself. *)
Fixpoint getSubstitution (matched group1 before after template : string) : string :=
  match template with
  | EmptyString => EmptyString
  | String "$" (String "$" t) =>
      "$" +:+ getSubstitution matched group1 before after t
  | String "$" (String "&" t) =>
      matched +:+ getSubstitution matched group1 before after t
  | String "$" (String "`" t) =>
      before +:+ getSubstitution matched group1 before after t
  | String "$" (String "'" t) =>
      after +:+ getSubstitution matched group1 before after t
  | String "$" (String "0" (String "1" t)) =>
      group1 +:+ getSubstitution matched group1 before after t
  | String "$" (String "1" t) =>
      group1 +:+ getSubstitution matched group1 before after t
  | String c t => String c (getSubstitution matched group1 before after t)
  end.

(** [fileContent.replace(/(\/\/\# sourceMappingURL=).+/, `$1${filename}`)] *)
Definition replaceReference (fileContent filename : string) : string :=
  match searchReference fileContent with
  | None => fileContent
  | Some (before, run, after) =>
      before
      +:+ getSubstitution (sourceMappingURL +:+ run) sourceMappingURL before after
            ("$1" +:+ filename)
      +:+ after
  end.

(** The new content of the destination file, lines 315-326 of
    [addSourcemap]. *)
Definition updatedContent (fileContent filename : string) : string :=
  let updated := replaceReference fileContent filename in
  if String.eqb updated fileContent then
    (* no existing source mapping URL was found in the file *)
    let updated :=
      if negb (endsWith fileContent LF) then
        let updated := if contains fileContent CRLF then updated +:+ CR else updated in
        updated +:+ LF
      else updated in
    updated +:+ sourceMappingURL +:+ filename
  else updated.

(** ** JSON documents *)

(** A parsed JSON value over a type [N] of numbers.  The properties of an
    object are kept in property order. *)
Inductive json (N : Type) : Type :=
| JNull
| JBool (b : bool)
| JNumber (n : N)
| JString (s : string)
| JArray (items : list (json N))
| JObject (props : list (string * json N)).

Arguments JNull {N}.
Arguments JBool {N} b.
Arguments JNumber {N} n.
Arguments JString {N} s.
Arguments JArray {N} items.
Arguments JObject {N} props.

(** ** acorn tokens and source-map mappings *)

Record Position := { line : nat; column : nat }.

Record SourceLocation := { loc_start : Position; loc_end : Position }.

(** [token.type.label] and [token.loc]. *)
Record Token := { type_label : string; loc : option SourceLocation }.

(** What successive calls of [tokenizer.getToken()] do on one input: return
    a token, raise a syntax error, or reach the end of the input, after which
    every call returns the end-of-stream token. *)
Inductive TokenStream :=
| TokNext (t : Token) (rest : TokenStream)
| TokSyntaxError (msg : string)
| TokEof (eofLoc : option SourceLocation).

Record Mapping := {
  original : Position;
  generated : Position;
  source : string;
}.

(** [new SourceMapGenerator({ file })] and the mappings added to it. *)
Record SourceMapGenerator := {
  gen_file : string;
  gen_mappings : list Mapping;
}.

Definition newSourceMapGenerator (file : string) : SourceMapGenerator :=
  {| gen_file := file; gen_mappings := [] |}.

Definition addMapping (g : SourceMapGenerator) (m : Mapping) : SourceMapGenerator :=
  {| gen_file := gen_file g; gen_mappings := gen_mappings g ++ [m] |}.

(** ** The platform: Node's [path] and [JSON], acorn, source-map *)

Class Platform := {
  (** [path.join(a, b)], [path.dirname(p)], [path.basename(p)] *)
  path_join : string -> string -> string;
  path_dirname : string -> string;
  path_basename : string -> string;
  (** JavaScript numbers, the number [3] and [===] on numbers *)
  number : Type;
  three : number;
  number_strict_eq : number -> number -> bool;
  (** [JSON.parse(text)], [inl msg] when it raises a syntax error;
      [JSON.stringify(value)] *)
  JSON_parse : string -> string + json number;
  JSON_stringify : json number -> string;
  (** [acorn.tokenizer(text, { ecmaVersion: 'latest', allowHashBang: true,
      locations: true })] *)
  acorn_tokenizer : string -> TokenStream;
  (** [generator.toJSON()] *)
  generator_toJSON : SourceMapGenerator -> json number;
}.

(** ** Errors, the file system and the session *)

Inductive errno := ENOENT | EISDIR.

Inductive error {P : Platform} :=
| ErrnoException (code : errno) (path : string)
| SyntaxError (msg : string)
| TypeError (msg : string)
  (** [new Error(`Unsupported sourcemap version: ${data.version}`)]; [None]
      is [undefined]. *)
| UnsupportedVersion (version : option (json number)).

Inductive node := File (content : string) | Dir.

Inductive logline {P : Platform} :=
| LogDebug (msg : string)
| LogWarn (msg : string) (cause : option error).

(** The destination and source trees, the log, and the variables [ready] and
    [ignoreFiles] that the handlers of [startFileSync] close over.  [pending]
    holds the calls [syncFile(filename)] that a handler has started and did
    not await. *)
Record state {P : Platform} := {
  fs : gmap string node;
  log : list logline;
  ready : bool;
  ignoreFiles : list string;
  pending : list string;
}.

Inductive outcome {P : Platform} (A : Type) :=
| Ok (a : A)
| Throw (e : error).

Arguments Ok {P A} a.
Arguments Throw {P A} e.

Record DevServer := {
  rootDir : string;
  adapterName : string;
  tempDir : string;
}.

Section Model.
Context {P : Platform}.

Definition with_fs (f : gmap string node) (st : state) : state :=
  {| fs := f; log := log st; ready := ready st;
     ignoreFiles := ignoreFiles st; pending := pending st |}.

Definition with_log (l : list logline) (st : state) : state :=
  {| fs := fs st; log := l; ready := ready st;
     ignoreFiles := ignoreFiles st; pending := pending st |}.

Definition with_ready (b : bool) (st : state) : state :=
  {| fs := fs st; log := log st; ready := b;
     ignoreFiles := ignoreFiles st; pending := pending st |}.

Definition with_ignoreFiles (l : list string) (st : state) : state :=
  {| fs := fs st; log := log st; ready := ready st;
     ignoreFiles := l; pending := pending st |}.

Definition with_pending (l : list string) (st : state) : state :=
  {| fs := fs st; log := log st; ready := ready st;
     ignoreFiles := ignoreFiles st; pending := l |}.

(** *** Computations that read and write the state and may throw *)

Definition M (A : Type) : Type := state -> outcome A * state.

Definition ret {A} (a : A) : M A := fun st => (Ok a, st).

Definition bind {A B} (c : M A) (k : A -> M B) : M B :=
  fun st =>
    match c st with
    | (Ok a, st') => k a st'
    | (Throw e, st') => (Throw e, st')
    end.

Definition throw {A} (e : error) : M A := fun st => (Throw e, st).

(** [try { body } catch (error) { handler(error) }] *)
Definition try_catch {A} (body : M A) (handler : error -> M A) : M A :=
  fun st =>
    match body st with
    | (Ok a, st') => (Ok a, st')
    | (Throw e, st') => handler e st'
    end.

Notation "'let*' x ':=' c 'in' k" := (bind c (fun x => k))
  (at level 10, x name, c at level 100, k at level 200).

Definition lift {A} (o : outcome A) : M A := fun st => (o, st).

Definition log_debug (msg : string) : M unit :=
  fun st => (Ok tt, with_log (log st ++ [LogDebug msg]) st).

Definition log_warn (msg : string) (cause : option error) : M unit :=
  fun st => (Ok tt, with_log (log st ++ [LogWarn msg cause]) st).

(** *** The [fs] module *)

(** [fs.existsSync(p)] *)
Definition existsSync (p : string) : M bool :=
  fun st => (Ok (bool_decide (is_Some (fs st !! p))), st).

(** [fs.readFile(p, { encoding: 'utf-8' })] and [fs.readFileSync(p, 'utf-8')] *)
Definition readFile (p : string) : M string :=
  fun st =>
    match fs st !! p with
    | Some (File content) => (Ok content, st)
    | Some Dir => (Throw (ErrnoException EISDIR p), st)
    | None => (Throw (ErrnoException ENOENT p), st)
    end.

(** [fs.writeFile(p, content)]: the directory of [p] has to exist and [p]
    must not be a directory. *)
Definition writeFile (p content : string) : M unit :=
  fun st =>
    match fs st !! path_dirname p with
    | Some Dir =>
        match fs st !! p with
        | Some Dir => (Throw (ErrnoException EISDIR p), st)
        | _ => (Ok tt, with_fs (<[p := File content]> (fs st)) st)
        end
    | _ => (Throw (ErrnoException ENOENT p), st)
    end.

(** [fs.copyFile(src, dest)] *)
Definition copyFile (src dest : string) : M unit :=
  let* content := readFile src in writeFile dest content.

(** [fs.unlinkSync(p)] *)
Definition unlinkSync (p : string) : M unit :=
  fun st =>
    match fs st !! p with
    | Some (File _) => (Ok tt, with_fs (delete p (fs st)) st)
    | Some Dir => (Throw (ErrnoException EISDIR p), st)
    | None => (Throw (ErrnoException ENOENT p), st)
    end.

(** [c] leaves [ready], [ignoreFiles] and [pending] alone. *)
Definition keeps_session {A} (c : M A) : Prop :=
  forall st,
    ready (snd (c st)) = ready st /\
    ignoreFiles (snd (c st)) = ignoreFiles st /\
    pending (snd (c st)) = pending st.

(** [c] changes no path of the file system outside [paths]. *)
Definition writesOnly {A} (c : M A) (paths : list string) : Prop :=
  forall st p, p ∉ paths -> fs (snd (c st)) !! p = fs st !! p.

(** ** Source maps *)

(** [readJson]: [JSON.parse(fs.readFileSync(filename, 'utf-8'))] *)
Definition readJson (filename : string) : M (json number) :=
  let* text := readFile filename in
  match JSON_parse text with
  | inr data => ret data
  | inl msg => throw (SyntaxError msg)
  end.

(** The first property named [key] of a property list. *)
Fixpoint assoc {A} (key : string) (props : list (string * A)) : option A :=
  match props with
  | [] => None
  | (k, v) :: props' => if String.eqb k key then Some v else assoc key props'
  end.

(** [props[key] = v]: an existing property keeps its place, a new one goes
    last ([key] is not an array index). *)
Fixpoint assign {A} (key : string) (v : A) (props : list (string * A))
  : list (string * A) :=
  match props with
  | [] => [(key, v)]
  | (k, x) :: props' =>
      if String.eqb k key then (k, v) :: props' else (k, x) :: assign key v props'
  end.

(** [data[key]] for a key that no prototype defines and that is not an
    index: [undefined] ([None]) on everything but objects, a [TypeError] on
    [null]. *)
Definition getProperty (data : json number) (key : string)
  : outcome (option (json number)) :=
  match data with
  | JNull => Throw (TypeError ("Cannot read property '" +:+ key +:+ "' of null"))
  | JObject props => Ok (assoc key props)
  | _ => Ok None
  end.

(** [data[key] = v] on a parsed object. *)
Definition setProperty (data : json number) (key : string) (v : json number)
  : json number :=
  match data with
  | JObject props => JObject (assign key v props)
  | _ => data
  end.

(** [version === 3] *)
Definition isThree (version : option (json number)) : bool :=
  match version with
  | Some (JNumber n) => number_strict_eq n three
  | _ => false
  end.

(** [path.dirname(src).replace(/\\/g, '/')], the new source root. *)
Definition sourceRootFor (src : string) : string :=
  replaceBackslashes (path_dirname src).

(** [data.sourceRoot = path.dirname(src).replace(/\\/g, '/')] *)
Definition patchDocument (src : string) (data : json number) : json number :=
  setProperty data "sourceRoot" (JString (sourceRootFor src)).

Definition patchSourcemap (src dest : string) : M unit :=
  try_catch
    (let* data := readJson src in
     let* version := lift (getProperty data "version") in
     if negb (isThree version) then throw (UnsupportedVersion version)
     else
       let data := patchDocument src data in
       let* _ := writeFile dest (JSON_stringify data) in
       log_debug ("Patched " +:+ dest +:+ " from " +:+ src))
    (fun error => log_warn ("Couldn't patch " +:+ dest +:+ ": ") (Some error)).

(** The mapping that [createIdentitySourcemap] adds for a token located at
    [l]. *)
Definition identityMapping (filename : string) (l : SourceLocation) : Mapping :=
  {| original := loc_start l; generated := loc_start l; source := filename |}.

(** The [while (true)] loop of [createIdentitySourcemap]. *)
Fixpoint addTokenMappings (filename : string) (tokenizer : TokenStream)
    (generator : SourceMapGenerator) : outcome SourceMapGenerator :=
  match tokenizer with
  | TokSyntaxError msg => Throw (SyntaxError msg)
  | TokEof _ => Ok generator
  | TokNext token rest =>
      if String.eqb (type_label token) "eof" then Ok generator
      else
        match loc token with
        | None => Ok generator
        | Some l =>
            addTokenMappings filename rest
              (addMapping generator (identityMapping filename l))
        end
  end.

(** [createIdentitySourcemap] up to the call of [generator.toJSON()]. *)
Definition identityGenerator (filename : string) : M SourceMapGenerator :=
  let generator := newSourceMapGenerator filename in
  let* fileContent := readFile filename in
  lift (addTokenMappings filename (acorn_tokenizer fileContent) generator).

Definition createIdentitySourcemap (filename : string) : M (json number) :=
  let* generator := identityGenerator filename in
  ret (generator_toJSON generator).

(** The [try] block of [addSourcemap]. *)
Definition addSourcemap_try (src dest : string) (copyFromSrc : bool) : M unit :=
  let mapFile := dest +:+ ".map" in
  let* data := createIdentitySourcemap (replaceBackslashes src) in
  let* _ := writeFile mapFile (JSON_stringify data) in
  (* append the sourcemap reference comment to the bottom of the file *)
  let* fileContent := readFile (if copyFromSrc then src else dest) in
  let filename := path_basename mapFile in
  let* _ := writeFile dest (updatedContent fileContent filename) in
  log_debug ("Created " +:+ mapFile +:+ " from " +:+ src).

Definition addSourcemap (src dest : string) (copyFromSrc : bool) : M unit :=
  try_catch (addSourcemap_try src dest copyFromSrc)
    (fun error => log_warn ("Couldn't reverse map for " +:+ src +:+ ": ") (Some error)).

(** The tokens that [getToken] returns before the end-of-stream token. *)
Fixpoint lexicalTokens (tokenizer : TokenStream) : list Token :=
  match tokenizer with
  | TokNext token rest =>
      if String.eqb (type_label token) "eof" then []
      else token :: lexicalTokens rest
  | _ => []
  end.

(** The tokenizer reaches the end of the stream: no call of [getToken]
    raises a syntax error. *)
Fixpoint lexes (tokenizer : TokenStream) : bool :=
  match tokenizer with
  | TokNext token rest =>
      String.eqb (type_label token) "eof" || lexes rest
  | TokSyntaxError _ => false
  | TokEof _ => true
  end.

(** The mappings of the tokens that carry a location. *)
Definition tokenMappings (filename : string) (tokens : list Token) : list Mapping :=
  omap (fun token => identityMapping filename <$> loc token) tokens.

(** What [patchSourcemap] does to the file system. *)
Definition patchedFs (src dest : string) (f : gmap string node) : gmap string node :=
  match f !! src with
  | Some (File text) =>
      match JSON_parse text with
      | inr data =>
          match getProperty data "version" with
          | Ok version =>
              if isThree version then
                match f !! path_dirname dest, f !! dest with
                | Some Dir, Some Dir => f
                | Some Dir, _ => <[dest := File (JSON_stringify (patchDocument src data))]> f
                | _, _ => f
                end
              else f
          | Throw _ => f
          end
      | inl _ => f
      end
  | _ => f
  end.

(** ** File synchronisation: [startFileSync] *)

Inductive event :=
| Ready
| Add (filename : string)
| Change (filename : string)
| Unlink (filename : string).

Section FileSync.
Variable this : DevServer.
Variable destinationDir : string.

Definition inSrc (filename : string) : string := path_join (rootDir this) filename.
Definition inDest (filename : string) : string := path_join destinationDir filename.

Definition syncFile (filename : string) : M unit :=
  try_catch
    (let* _ := log_debug ("Synchronizing " +:+ filename) in
     let src := inSrc filename in
     let dest := inDest filename in
     if endsWith filename ".map" then patchSourcemap src dest
     else
       let* hasMap := existsSync (inSrc (filename +:+ ".map")) in
       if negb hasMap then
         (* copy file and add sourcemap *)
         addSourcemap src dest true
       else copyFile src dest)
    (fun _ => log_warn ("Couldn't sync " +:+ filename) None).

(** [syncFile(filename)] called without [await]: the call is started. *)
Definition startSyncFile (filename : string) : M unit :=
  fun st => (Ok tt, with_pending (pending st ++ [filename]) st).

(** [watcher.on('ready', ...)] *)
Definition onReady : M unit :=
  fun st => (Ok tt, with_ready true st).

(** [watcher.on('add', ...)] *)
Definition onAdd (filename : string) : M unit :=
  fun st =>
    if ready st then startSyncFile filename st
    else if negb (endsWith filename "map") then
      (let* inTarget := existsSync (inDest filename) in
       if negb inTarget then
         (* ignore files during initial sync if they don't exist in the target directory *)
         fun st => (Ok tt, with_ignoreFiles (ignoreFiles st ++ [filename]) st)
       else log_debug ("Watching " +:+ filename)) st
    else log_debug ("Watching " +:+ filename) st.

(** [watcher.on('change', ...)] *)
Definition onChange (filename : string) : M unit :=
  fun st =>
    if negb (includes (ignoreFiles st) filename) then startSyncFile filename st
    else (Ok tt, st).

(** [watcher.on('unlink', ...)] *)
Definition onUnlink (filename : string) : M unit :=
  let* _ := unlinkSync (inDest filename) in
  let map := inDest (filename +:+ ".map") in
  let* mapExists := existsSync map in
  if mapExists then unlinkSync map else ret tt.

Definition handle (ev : event) : M unit :=
  match ev with
  | Ready => onReady
  | Add filename => onAdd filename
  | Change filename => onChange filename
  | Unlink filename => onUnlink filename
  end.

(** The started calls of [syncFile] run to completion, oldest first. *)
Fixpoint syncAll (filenames : list string) : M unit :=
  match filenames with
  | [] => ret tt
  | filename :: rest => let* _ := syncFile filename in syncAll rest
  end.

Definition settle : M unit :=
  fun st => syncAll (pending st) (with_pending [] st).

(** One event: its handler runs, then the calls it started. *)
Definition deliver (ev : event) : M unit :=
  let* _ := handle ev in settle.

(** The handlers alone over a sequence of events, in the order of delivery;
    it stops at the first handler that throws. *)
Fixpoint handleAll (evs : list event) : M unit :=
  match evs with
  | [] => ret tt
  | ev :: rest => let* _ := handle ev in handleAll rest
  end.

(** The same with every started call of [syncFile] run before the next
    event. *)
Fixpoint deliverAll (evs : list event) : M unit :=
  match evs with
  | [] => ret tt
  | ev :: rest => let* _ := deliver ev in deliverAll rest
  end.

End FileSync.

End Model.

Arguments syncFile {P} this destinationDir filename _.
Arguments onAdd {P} destinationDir filename _.
Arguments onUnlink {P} destinationDir filename.
Arguments inDest {P} destinationDir filename.
Arguments inSrc {P} this filename.

(** ** source-map: the mappings that [toJSON] writes

    [generator.toJSON()] returns the document [{ version, sources, names,
    mappings, file }].  Its [mappings] are the segments that
    [_serializeMappings] writes for the mappings of the generator: sorted
    when they were not added in order, and without a mapping that equals the
    one before it. *)

Definition thenCompare (c next : comparison) : comparison :=
  match c with
  | Eq => next
  | _ => c
  end.

(** [util.compareByGeneratedPositionsInflated(a, b)], as the sign of the
    number it returns.  No mapping of the model has a name; sources compare
    by their bytes, and the mappings that [createIdentitySourcemap] adds to
    a generator have one source. *)
Definition compareByGeneratedPositionsInflated (a b : Mapping) : comparison :=
  thenCompare (Nat.compare (line (generated a)) (line (generated b)))
  (thenCompare (Nat.compare (column (generated a)) (column (generated b)))
  (thenCompare (String.compare (source a) (source b))
  (thenCompare (Nat.compare (line (original a)) (line (original b)))
               (Nat.compare (column (original a)) (column (original b)))))).

(** [generatedPositionAfter(mappingA, mappingB)] of [MappingList]. *)
Definition generatedPositionAfter (a b : Mapping) : bool :=
  let lineA := line (generated a) in
  let lineB := line (generated b) in
  let columnA := column (generated a) in
  let columnB := column (generated b) in
  Nat.ltb lineA lineB
  || (Nat.eqb lineB lineA && Nat.leb columnA columnB)
  || match compareByGeneratedPositionsInflated a b with
     | Gt => false
     | _ => true
     end.

(** [_sorted] after [MappingList.add] has taken the mappings of [l] one by
    one; [last] is [_last], [None] for its initial value, which every mapping
    comes after. *)
Fixpoint addedInOrder (last : option Mapping) (l : list Mapping) : bool :=
  match l with
  | [] => true
  | m :: rest =>
      match last with
      | None => addedInOrder (Some m) rest
      | Some a => generatedPositionAfter a m && addedInOrder (Some m) rest
      end
  end.

Fixpoint insertSorted (m : Mapping) (sorted : list Mapping) : list Mapping :=
  match sorted with
  | [] => [m]
  | x :: rest =>
      match compareByGeneratedPositionsInflated m x with
      | Gt => x :: insertSorted m rest
      | _ => m :: sorted
      end
  end.

(** [array.sort(util.compareByGeneratedPositionsInflated)] *)
Fixpoint sortMappings (l : list Mapping) : list Mapping :=
  match l with
  | [] => []
  | m :: rest => insertSorted m (sortMappings rest)
  end.

(** [this._mappings.toArray()] *)
Definition toArray (g : SourceMapGenerator) : list Mapping :=
  if addedInOrder None (gen_mappings g) then gen_mappings g
  else sortMappings (gen_mappings g).

(** [this._sources.toArray()]: the sources in the order in which
    [addMapping] has first seen them. *)
Definition gen_sources (g : SourceMapGenerator) : list string :=
  fold_left (fun sources m =>
               if includes sources (source m) then sources
               else (sources ++ [source m])%list)
            (gen_mappings g) [].

Fixpoint indexOf (x : string) (l : list string) : nat :=
  match l with
  | [] => 0
  | y :: rest => if String.eqb x y then 0 else S (indexOf x rest)
  end.

(** *** Base 64 VLQ *)

Definition base64Digits : string :=
  "ABCDEFGHIJKLMNOPQRSTUVWXYZabcdefghijklmnopqrstuvwxyz0123456789+/".

Definition base64_encode (digit : Z) : string :=
  match String.get (Z.to_nat digit) base64Digits with
  | Some c => String c EmptyString
  | None => EmptyString
  end.

(** [toVLQSigned(aValue)], as an unsigned 32-bit integer. *)
Definition toVLQSigned (aValue : Z) : Z :=
  ((if aValue <? 0 then Z.shiftl (- aValue) 1 + 1 else Z.shiftl aValue 1)
   mod 2 ^ 32)%Z.

(** The [do ... while (vlq > 0)] loop of [base64VLQ.encode]; a 32-bit
    integer has at most seven digits of five bits. *)
Fixpoint vlqDigits (fuel : nat) (vlq : Z) : string :=
  match fuel with
  | O => EmptyString
  | S fuel' =>
      let digit := Z.land vlq 31 in
      let vlq := Z.shiftr vlq 5 in
      if (0 <? vlq)%Z
      then base64_encode (Z.lor digit 32) +:+ vlqDigits fuel' vlq
      else base64_encode digit
  end.

Definition base64VLQ_encode (aValue : Z) : string :=
  vlqDigits 7 (toVLQSigned aValue).

(** *** [_serializeMappings] *)

(** The variables [previousGeneratedColumn], [previousGeneratedLine],
    [previousOriginalColumn], [previousOriginalLine] and [previousSource]. *)
Record Previous := {
  previousGeneratedColumn : Z;
  previousGeneratedLine : nat;
  previousOriginalColumn : Z;
  previousOriginalLine : Z;
  previousSource : Z;
}.

Definition initialPrevious : Previous :=
  {| previousGeneratedColumn := 0; previousGeneratedLine := 1;
     previousOriginalColumn := 0; previousOriginalLine := 0; previousSource := 0 |}.

Fixpoint semicolons (n : nat) : string :=
  match n with
  | O => EmptyString
  | S n' => ";" +:+ semicolons n'
  end.

(** The loop over [mappings]: the mappings for which a segment is written,
    each with the text added to [result] for it.  [before] is
    [mappings[i - 1]], [None] when [i] is [0].  Lines count from 1 and the
    array is sorted, so a new line is the previous line plus the number of
    [;] written. *)
Fixpoint serializeFrom (sources : list string) (previous : Previous)
    (before : option Mapping) (mappings : list Mapping) : list (Mapping * string) :=
  match mappings with
  | [] => []
  | mapping :: rest =>
      let sameLine :=
        Nat.eqb (line (generated mapping)) (previousGeneratedLine previous) in
      let repeated :=
        match before with
        | Some m =>
            match compareByGeneratedPositionsInflated mapping m with
            | Eq => true
            | _ => false
            end
        | None => false
        end in
      if sameLine && repeated then serializeFrom sources previous (Some mapping) rest
      else
        let separator :=
          if sameLine then match before with Some _ => "," | None => EmptyString end
          else semicolons (line (generated mapping) - previousGeneratedLine previous) in
        let generatedColumn := Z.of_nat (column (generated mapping)) in
        let sourceIdx := Z.of_nat (indexOf (source mapping) sources) in
        let originalLine := (Z.of_nat (line (original mapping)) - 1)%Z in
        let originalColumn := Z.of_nat (column (original mapping)) in
        let next :=
          separator
          +:+ base64VLQ_encode
                (generatedColumn
                 - (if sameLine then previousGeneratedColumn previous else 0))%Z
          +:+ base64VLQ_encode (sourceIdx - previousSource previous)%Z
          +:+ base64VLQ_encode (originalLine - previousOriginalLine previous)%Z
          +:+ base64VLQ_encode (originalColumn - previousOriginalColumn previous)%Z in
        (mapping, next)
        :: serializeFrom sources
             {| previousGeneratedColumn := generatedColumn;
                previousGeneratedLine := line (generated mapping);
                previousOriginalColumn := originalColumn;
                previousOriginalLine := originalLine;
                previousSource := sourceIdx |}
             (Some mapping) rest
  end.

Definition serializedSegments (g : SourceMapGenerator) : list (Mapping * string) :=
  serializeFrom (gen_sources g) initialPrevious None (toArray g).

(** The mappings of the map that [toJSON] returns. *)
Definition serializedMappings (g : SourceMapGenerator) : list Mapping :=
  map fst (serializedSegments g).

Definition serializeMappings (g : SourceMapGenerator) : string :=
  fold_right String.append EmptyString (map snd (serializedSegments g)).

(** [generator.toJSON()] of source-map. *)
Definition toJSON {P : Platform} (g : SourceMapGenerator) : json number :=
  JObject [("version", JNumber three);
           ("sources", JArray (map JString (gen_sources g)));
           ("names", JArray []);
           ("mappings", JString (serializeMappings g));
           ("file", JString (gen_file g))].

(** Positions in the order of the text. *)
Definition positionBefore (p q : Position) : bool :=
  Nat.ltb (line p) (line q)
  || (Nat.eqb (line p) (line q) && Nat.ltb (column p) (column q)).

(** Each position lies before the next one. *)
Fixpoint ascending (l : list Position) : bool :=
  match l with
  | p :: (q :: _) as rest => positionBefore p q && ascending rest
  | _ => true
  end.

(** Where the located tokens start. *)
Definition tokenStarts (tokens : list Token) : list Position :=
  omap (fun token => loc_start <$> loc token) tokens.

(** The generated positions of [l] ascend, the first of them from the
    position of [before]. *)
Definition ascendingFrom (before : option Mapping) (l : list Mapping) : bool :=
  match before with
  | Some a => ascending (map generated (a :: l))
  | None => ascending (map generated l)
  end.

(** ** Request routing: the two proxies of [runServer] *)

Definition HIDDEN_ADMIN_PORT : N := 18881.
Definition HIDDEN_BROWSER_SYNC_PORT : N := 18882.

(** [`http://localhost:${port}`] *)
Inductive origin := Localhost (port : N).

(** One call of [createProxyMiddleware(context, options)]. *)
Record ProxyMiddleware := {
  context : list string;
  target : origin;
  ws : bool;
  pathRewrite : option (list (string * string));
}.

Definition adminPattern (adapterName : string) : string :=
  "/adapter/" +:+ adapterName +:+ "/**".

(** browser-sync proxy *)
Definition browserSyncProxy (adapterName : string) : ProxyMiddleware :=
  {| context := [adminPattern adapterName; "/browser-sync/**"];
     target := Localhost HIDDEN_BROWSER_SYNC_PORT;
     (* ws: true, // can't have two web-socket connections proxying to different locations *)
     ws := false;
     pathRewrite := Some [("^/adapter/" +:+ adapterName +:+ "/", "/")] |}.

(** admin proxy *)
Definition adminProxy (adapterName : string) : ProxyMiddleware :=
  {| context := ["!" +:+ adminPattern adapterName; "!/browser-sync/**"];
     target := Localhost HIDDEN_ADMIN_PORT;
     ws := true;
     pathRewrite := None |}.

(** The middlewares in the order of the calls of [app.use]. *)
Definition app (adapterName : string) : list ProxyMiddleware :=
  [browserSyncProxy adapterName; adminProxy adapterName].

(** *** http-proxy-middleware on the two contexts

    A middleware takes a request when micromatch, given the path name of the
    request and the globs of the context, returns that path name; the
    forwarded path is the URL of the request after the first rule of
    [pathRewrite] whose expression matches it.  url.parse, picomatch,
    micromatch and the rewriter are written out for what occurs here: a
    request target in origin form whose characters url.parse leaves in
    place, globs [<dir>/**] and [!<dir>/**] and rules [^<prefix>] in which
    the directory and the prefix are made of letters, digits, [-], [_] and
    [/].  A context or a rule of another shape stays a parameter. *)

Fixpoint allChars (f : ascii -> bool) (s : string) : bool :=
  match s with
  | EmptyString => true
  | String c s' => f c && allChars f s'
  end.

Definition codeBetween (lo hi : nat) (c : ascii) : bool :=
  Nat.leb lo (nat_of_ascii c) && Nat.leb (nat_of_ascii c) hi.

(** Letters, digits, [-] and [_] stand for themselves in a glob and in a
    regular expression. *)
Definition plainChar (c : ascii) : bool :=
  codeBetween 48 57 c || codeBetween 65 90 c || codeBetween 97 122 c
  || Ascii.eqb c "-" || Ascii.eqb c "_".

Definition plainName (s : string) : bool :=
  negb (String.eqb s EmptyString) && allChars plainChar s.

Definition plainPath (s : string) : bool :=
  negb (String.eqb s EmptyString)
  && allChars (fun c => plainChar c || Ascii.eqb c "/") s.

(** The characters that url.parse escapes: braces, the bar, the backslash,
    the caret, the backquote, the angle brackets, both quotes, the blank and
    the control characters.  The visible ASCII characters without them are
    left in place. *)
Definition autoEscape : list ascii :=
  ["{"; "}"; "|"; "092"; "^"; "`"; "<"; ">"; "034"; "'"]%char.

Definition urlChar (c : ascii) : bool :=
  codeBetween 33 126 c && negb (existsb (Ascii.eqb c) autoEscape).

(** A request target in origin form, [/path?query], that does not start
    with two slashes, where url.parse may look for a host. *)
Definition originForm (url : string) : bool :=
  startsWith url "/" && negb (startsWith url "//") && allChars urlChar url.

(** [url.parse(url).pathname] of such a target: the text before the first
    [?] or [#]. *)
Fixpoint pathname (url : string) : string :=
  match url with
  | EmptyString => EmptyString
  | String c url' =>
      if Ascii.eqb c "?" || Ascii.eqb c "#" then EmptyString
      else String c (pathname url')
  end.

(** [s] without the suffix [suffix], when it has it. *)
Fixpoint stripSuffix (suffix s : string) : option string :=
  if String.eqb s suffix then Some EmptyString
  else match s with
       | EmptyString => None
       | String c s' => String c <$> stripSuffix suffix s'
       end.

(** A glob as picomatch parses it: [!] in front negates, [<dir>/**] is a
    directory with everything below it. *)
Record Glob := { negated : bool; directory : string }.

Definition globDirectory (glob : string) : option string :=
  match stripSuffix "/**" glob with
  | Some dir => if plainPath dir then Some dir else None
  | None => None
  end.

Definition parseGlob (pattern : string) : option Glob :=
  match stripPrefix "!" pattern with
  | Some glob =>
      (fun dir => {| negated := true; directory := dir |}) <$> globDirectory glob
  | None =>
      (fun dir => {| negated := false; directory := dir |}) <$> globDirectory pattern
  end.

Fixpoint parseGlobs (patterns : list string) : option (list Glob) :=
  match patterns with
  | [] => Some []
  | pattern :: rest =>
      match parseGlob pattern, parseGlobs rest with
      | Some glob, Some globs => Some (glob :: globs)
      | _, _ => None
      end
  end.

(** No line terminator in [s]: [.] matches each of its characters. *)
Fixpoint singleLine (s : string) : bool :=
  match s with
  | EmptyString => true
  | String _ s' => negb (lineTerminatorAt s) && singleLine s'
  end.

(** A path segment of [rest] starts with a dot. *)
Definition hasDotSegment (rest : string) : bool :=
  startsWith rest "." || contains rest "/.".

(** The expression that picomatch makes of [<dir>/**],
    [^(?:<dir>(?:\/(?!\.)(?:(?:(?!(?:^|\/)\.).)*?)|$))$]: the directory
    itself, or the directory, a slash and a rest on one line in which no
    segment starts with a dot. *)
Definition globstarMatch (dir input : string) : bool :=
  String.eqb input dir ||
  match stripPrefix (dir +:+ "/") input with
  | Some rest => negb (hasDotSegment rest) && singleLine rest
  | None => false
  end.

(** [isMatch(input)] of the matcher that picomatch makes of a glob.  The
    empty input matches nothing; the expression of a negated glob is
    [^(?!<expression of the glob>).*$]. *)
Definition isMatch (glob : Glob) (input : string) : bool :=
  negb (String.eqb input EmptyString) &&
  (if negated glob then negb (globstarMatch (directory glob) input) && singleLine input
   else globstarMatch (directory glob) input).

(** The loop of [micromatch([input], patterns)] over the patterns: whether
    [input] is in [keep] and in [omit], and the count of negated patterns. *)
Fixpoint micromatchLoop (globs : list Glob) (input : string)
    (keep omit : bool) (negatives : nat) : bool * bool * nat :=
  match globs with
  | [] => (keep, omit, negatives)
  | glob :: rest =>
      let negatives := if negated glob then S negatives else negatives in
      let matched := isMatch glob input in
      let match_ := if negated glob then negb matched else matched in
      if negb match_ then micromatchLoop rest input keep omit negatives
      else if negated glob then micromatchLoop rest input keep true negatives
      else micromatchLoop rest input true false negatives
  end.

(** [micromatch([input], patterns).length > 0].  When every pattern is
    negated the result starts from the items seen, and [input] has been seen
    once there is a pattern. *)
Definition micromatch (globs : list Glob) (input : string) : bool :=
  let '(keep, omit, negatives) := micromatchLoop globs input false false 0 in
  let result :=
    if Nat.eqb negatives (length globs)
    then match globs with [] => false | _ => true end
    else keep in
  result && negb omit.

Section Router.
(** http-proxy-middleware on a context or a request target of another
    shape, and [regex.test(path)] with [path.replace(regex, value)] for
    another rule ([None]: the expression does not match). *)
Variable contextMatch_other : list string -> string -> bool.
Variable replace_other : string -> string -> string -> option string.

Definition contextMatch (context : list string) (url : string) : bool :=
  match parseGlobs context with
  | Some globs =>
      if originForm url then micromatch globs (pathname url)
      else contextMatch_other context url
  | None => contextMatch_other context url
  end.

(** The prefix of a rule [^<prefix>]. *)
Definition literalPrefix (regex : string) : option string :=
  match stripPrefix "^" regex with
  | Some prefix => if plainPath prefix then Some prefix else None
  | None => None
  end.

Definition rewriteRule (regex value path : string) : option string :=
  match literalPrefix regex with
  | Some prefix =>
      if contains value "$" then replace_other regex value path
      else (fun tail => value +:+ tail) <$> stripPrefix prefix path
  | None => replace_other regex value path
  end.

(** The first rule whose expression matches the path rewrites it. *)
Fixpoint rewritePath (rules : list (string * string)) (path : string) : string :=
  match rules with
  | [] => path
  | (regex, value) :: rest =>
      match rewriteRule regex value path with
      | Some result => result
      | None => rewritePath rest path
      end
  end.

Definition forwardedPath (mw : ProxyMiddleware) (url : string) : string :=
  match pathRewrite mw with
  | Some rules => rewritePath rules url
  | None => url
  end.

(** An HTTP request goes to the first middleware whose context matches; the
    others never see it.  [None]: no middleware takes the request. *)
Fixpoint route (mws : list ProxyMiddleware) (url : string) : option (origin * string) :=
  match mws with
  | [] => None
  | mw :: rest =>
      if contextMatch (context mw) url then Some (target mw, forwardedPath mw url)
      else route rest url
  end.

(** An upgrade request is taken by the middlewares created with [ws: true]
    whose context matches. *)
Definition routeUpgrade (mws : list ProxyMiddleware) (url : string)
  : list (origin * string) :=
  map (fun mw => (target mw, forwardedPath mw url))
      (List.filter (fun mw => ws mw && contextMatch (context mw) url) mws).

End Router.

(** ** A small platform to run the model on

    POSIX-like paths without normalisation, natural numbers, a printer for
    JSON with a reader for the documents in [posix_documents], a lexer that
    splits at blanks and line feeds and rejects [@], and a generator that
    lists its mappings. *)

Definition posix_join (a b : string) : string := a +:+ "/" +:+ b.

(** The text before the last [/] of [p], when [p] has one. *)
Fixpoint beforeLastSlash (p : string) : option string :=
  match p with
  | EmptyString => None
  | String c p' =>
      match beforeLastSlash p' with
      | Some d => Some (String c d)
      | None => if Ascii.eqb c "/" then Some EmptyString else None
      end
  end.

Definition posix_dirname (p : string) : string :=
  match beforeLastSlash p with
  | Some EmptyString => "/"
  | Some d => d
  | None => "."
  end.

Fixpoint posix_basename (p : string) : string :=
  match p with
  | EmptyString => EmptyString
  | String c p' =>
      if contains p' "/" then posix_basename p'
      else if Ascii.eqb c "/" then p' else p
  end.

Definition quote : string := String "034"%char EmptyString.

Definition digit (n : nat) : string :=
  String (ascii_of_nat (48 + n mod 10)) EmptyString.

(** Decimal numerals below one thousand, enough for the examples. *)
Definition numeral (n : nat) : string :=
  if Nat.ltb n 10 then digit n
  else if Nat.ltb n 100 then digit (n / 10) +:+ digit n
  else digit (n / 100) +:+ digit (n / 10) +:+ digit n.

Fixpoint joinWith (sep : string) (l : list string) : string :=
  match l with
  | [] => EmptyString
  | [x] => x
  | x :: rest => x +:+ sep +:+ joinWith sep rest
  end.

Fixpoint posix_stringify (data : json nat) : string :=
  match data with
  | JNull => "null"
  | JBool b => if b then "true" else "false"
  | JNumber n => numeral n
  | JString s => quote +:+ s +:+ quote
  | JArray items => "[" +:+ joinWith "," (map posix_stringify items) +:+ "]"
  | JObject props =>
      "{" +:+ joinWith ","
                (map (fun kv => quote +:+ fst kv +:+ quote +:+ ":" +:+ posix_stringify (snd kv))
                     props)
      +:+ "}"
  end.

(** [{"version":3,"sources":["main.ts"],"sourceRoot":""}] and two documents
    that [patchSourcemap] rejects. *)
Definition document_v3 : json nat :=
  JObject [("version", JNumber 3); ("sources", JArray [JString "main.ts"]);
           ("sourceRoot", JString "")].
Definition document_v2 : json nat :=
  JObject [("version", JNumber 2); ("sources", JArray [JString "main.ts"])].
Definition document_v3_string : json nat :=
  JObject [("version", JString "3")].

Definition posix_documents : list (json nat) :=
  [document_v3; document_v2; document_v3_string; JNull;
   JObject [("version", JNumber 3); ("sources", JArray [JString "main.ts"]);
            ("sourceRoot", JString "/work/build")]].

Definition posix_parse (text : string) : string + json nat :=
  match List.find (fun d => String.eqb (posix_stringify d) text) posix_documents with
  | Some d => inr d
  | None => inl "Unexpected token in JSON"
  end.

(** A token for every run of characters other than blank and line feed;
    lines count from 1 and columns from 0, as in acorn. *)
Fixpoint posix_lex (text : string) (ln col : nat) (inToken : bool) : TokenStream :=
  match text with
  | EmptyString =>
      TokEof (Some {| loc_start := {| line := ln; column := col |};
                      loc_end := {| line := ln; column := col |} |})
  | String c text' =>
      if Ascii.eqb c "@" then TokSyntaxError "Unexpected character '@'"
      else if Ascii.eqb c " " then posix_lex text' ln (S col) false
      else if Ascii.eqb c "010" then posix_lex text' (S ln) 0 false
      else if inToken then posix_lex text' ln (S col) true
      else
        TokNext {| type_label := "name";
                   loc := Some {| loc_start := {| line := ln; column := col |};
                                  loc_end := {| line := ln; column := S col |} |} |}
                (posix_lex text' ln (S col) true)
  end.

Definition posix_toJSON (g : SourceMapGenerator) : json nat :=
  JObject
    [("version", JNumber 3);
     ("file", JString (gen_file g));
     ("mappings",
      JArray (map (fun m => JArray [JNumber (line (generated m));
                                    JNumber (column (generated m));
                                    JString (source m);
                                    JNumber (line (original m));
                                    JNumber (column (original m))])
                  (gen_mappings g)))].

Definition posix : Platform := {|
  path_join := posix_join;
  path_dirname := posix_dirname;
  path_basename := posix_basename;
  number := nat;
  three := 3;
  number_strict_eq := Nat.eqb;
  JSON_parse := posix_parse;
  JSON_stringify := posix_stringify;
  acorn_tokenizer := fun text => posix_lex text 1 0 false;
  generator_toJSON := posix_toJSON;
|}.

(** The small platform with the tokens that acorn returns for the empty
    template literal, a backquote, a template of no characters and a
    backquote, and with the [toJSON] of source-map. *)
Definition tokenAt (label : string) (from to : nat) : Token :=
  {| type_label := label;
     loc := Some {| loc_start := {| line := 1; column := from |};
                    loc_end := {| line := 1; column := to |} |} |}.

Definition template_lex (text : string) : TokenStream :=
  if String.eqb text "``" then
    TokNext (tokenAt "`" 0 1)
      (TokNext (tokenAt "template" 1 1)
         (TokNext (tokenAt "`" 1 2)
            (TokEof (Some {| loc_start := {| line := 1; column := 2 |};
                             loc_end := {| line := 1; column := 2 |} |}))))
  else posix_lex text 1 0 false.

Definition posix_sourcemap : Platform := {|
  path_join := posix_join;
  path_dirname := posix_dirname;
  path_basename := posix_basename;
  number := nat;
  three := 3;
  number_strict_eq := Nat.eqb;
  JSON_parse := posix_parse;
  JSON_stringify := posix_stringify;
  acorn_tokenizer := template_lex;
  generator_toJSON := toJSON (P := posix);
|}.

(** ** File patterns: [getFilePatterns] *)

(** [extensions] is a string ([inl]) or an array of strings ([inr]). *)
Definition getFilePatterns (extensions : string + list string) (excludeAdmin : bool)
  : list string :=
  let exts := match extensions with inl e => [e] | inr l => l end in
  let patterns := map (fun e => "./**/*." +:+ e) exts in
  let patterns := (patterns ++ ["!./.*/**"])%list in
  let patterns := (patterns ++ ["!./node_modules/**"])%list in
  let patterns := (patterns ++ ["!./test/**"])%list in
  if excludeAdmin then (patterns ++ ["!./admin/**"])%list else patterns.

(** ** The command line: the [check] callback and [runCommand] *)

Definition runCommands : list string := ["run"; "watch"; "debug"].

Section CommandLine.
(** The positional arguments [argv._] are strings ([inl]) or numbers
    ([inr]). *)
Variable Num : Type.

(** [argv._.includes(s)] for a string [s]. *)
Definition includesArg (args : list (string + Num)) (s : string) : bool :=
  existsb (fun a => match a with inl x => String.eqb x s | inr _ => false end) args.

(** [cmd[0]]; [None] is [undefined]. *)
Definition charAt0 (cmd : string) : option string :=
  match cmd with
  | EmptyString => None
  | String c _ => Some (String c EmptyString)
  end.

(** expand short command names *)
Definition expandShortNames (args : list (string + Num)) : list (string + Num) :=
  fold_left
    (fun args cmd =>
       match charAt0 cmd with
       | Some c => if includesArg args c then (args ++ [inl cmd])%list else args
       | None => args
       end)
    runCommands args.

(** The first result that [f] gives along [l]. *)
Fixpoint firstSome {A B} (f : A -> option B) (l : list A) : option B :=
  match l with
  | [] => None
  | x :: l' => match f x with Some y => Some y | None => firstSome f l' end
  end.

(** ensure only one of the run commands is included: the pair at which the
    nested [forEach] throws. *)
Definition combined (args : list (string + Num)) : option (string * string) :=
  firstSome
    (fun cmd =>
       if includesArg args cmd then
         firstSome
           (fun other =>
              if negb (String.eqb other cmd) && includesArg args other
              then Some (cmd, other) else None)
           runCommands
       else None)
    runCommands.

(** The callback given to [.check]: the new [argv._], or the message of the
    error it throws. *)
Definition check (args : list (string + Num)) : string + list (string + Num) :=
  let args := if Nat.eqb (length args) 0 then (args ++ [inl "run"])%list else args in
  let args := expandShortNames args in
  match combined args with
  | Some (cmd, other) =>
      inl ("Can't combine " +:+ cmd +:+ " and " +:+ other
           +:+ ". You may only use one at a time.")
  | None => inr args
  end.

(** [this.runCommands.find((c) => this.argv._.includes(c))] in [run]. *)
Definition runCommand (args : list (string + Num)) : option string :=
  List.find (fun c => includesArg args c) runCommands.

(** A run command is asked for by its name or by its first letter. *)
Definition asksFor (args : list (string + Num)) (cmd : string) : bool :=
  includesArg args cmd ||
  match charAt0 cmd with Some c => includesArg args c | None => false end.

End CommandLine.

Arguments includesArg {Num} args s.
Arguments expandShortNames {Num} args.
Arguments combined {Num} args.
Arguments check {Num} args.
Arguments runCommand {Num} args.
Arguments asksFor {Num} args cmd.

(** ** The adapter name: [findAdapterName] *)

(** [pkgName.match(/^iobroker\.(.+)$/)]: the text of the group, when the
    expression matches.  Without the [m] flag [$] is the end of the text, so
    the group is all that follows the prefix, and it has no line
    terminator. *)
Definition matchPackageName (pkgName : string) : option string :=
  match stripPrefix "iobroker." pkgName with
  | None => None
  | Some rest =>
      match dotStar rest with
      | (String _ _, EmptyString) => Some rest
      | _ => None
      end
  end.

(** What [findAdapterName] throws: [new Error(`Invalid package name in
    package.json: ...`)], or an error that comes from below. *)
Inductive adapterNameError {P : Platform} :=
| InvalidPackageName (pkgName : string)
| Raised (e : error).

Section AdapterName.
Context {P : Platform}.

Definition readPackageJson (this : DevServer) : M (json number) :=
  readJson (path_join (rootDir this) "package.json").

Definition findAdapterName (this : DevServer)
  : state -> (adapterNameError + string) * state :=
  fun st =>
    match readPackageJson this st with
    | (Throw e, st') => (inl (Raised e), st')
    | (Ok pkg, st') =>
        match getProperty pkg "name" with
        | Throw e => (inl (Raised e), st')
        | Ok (Some (JString pkgName)) =>
            match matchPackageName pkgName with
            | None => (inl (InvalidPackageName pkgName), st')
            | Some EmptyString => (inl (InvalidPackageName pkgName), st')
            | Some name =>
                (inr name,
                 with_log (log st' ++ [LogDebug ("Found adapter name: " +:+ quote
                                                 +:+ name +:+ quote)]) st')
            end
        | Ok None =>
            (inl (Raised (TypeError "Cannot read property 'match' of undefined")), st')
        | Ok (Some JNull) =>
            (inl (Raised (TypeError "Cannot read property 'match' of null")), st')
        | Ok (Some _) =>
            (inl (Raised (TypeError "pkgName.match is not a function")), st')
        end
    end.

(** [argv.adapter || this.findAdapterName()] in the constructor: the option
    counts when it is a string that is not empty. *)
Definition resolveAdapterName (this : DevServer) (adapter : option string)
  : state -> (adapterNameError + string) * state :=
  fun st =>
    match adapter with
    | Some (String c name) => (inr (String c name), st)
    | _ => findAdapterName this st
    end.

End AdapterName.

(** ** The paths an event is about *)

(** The destination file of an event and the two spellings of its map:
    [syncFile] writes [`${dest}.map`], the unlink handler removes
    [inDest(filename + '.map')]. *)
Definition touched {P : Platform} (destinationDir : string) (ev : event) : list string :=
  match ev with
  | Ready => []
  | Add filename | Change filename | Unlink filename =>
      [inDest destinationDir filename;
       inDest destinationDir filename +:+ ".map";
       inDest destinationDir (filename +:+ ".map")]
  end.

(** ** States of the small platform used in the examples *)

Definition devServer : DevServer :=
  {| rootDir := "/work"; adapterName := "test"; tempDir := "/work/.devserver" |}.

Definition adapterRunDir : string := "/run/iobroker.test".

(** A working tree with [main.js] (no map beside it) and a version-3 map
    [build/lib.js.map]; a destination that holds neither. *)
Definition tree : gmap string node :=
  {[ "/work" := Dir;
     "/work/main.js" := File ("let x" +:+ CRLF +:+ "x");
     "/work/build" := Dir;
     "/work/build/lib.js.map" := File (posix_stringify document_v3);
     "/work/build/old.js.map" := File (posix_stringify document_v2);
     "/run" := Dir;
     "/run/iobroker.test" := Dir;
     "/run/iobroker.test/build" := Dir ]}.

Definition initial : @state posix :=
  {| fs := tree; log := []; ready := false; ignoreFiles := []; pending := [] |}.

(** The working tree with [quote.js], the empty template literal, and
    [bad.js], which acorn rejects, on the platform that serializes its
    maps. *)
Definition scripts : @state posix_sourcemap :=
  {| fs := <["/work/quote.js" := File "``"]>
             (<["/work/bad.js" := File "let @"]> tree);
     log := []; ready := false; ignoreFiles := []; pending := [] |}.

(** A destination that was installed with [main.js] in it. *)
Definition installed : @state posix :=
  with_fs (<["/run/iobroker.test/main.js" := File "old"]> tree) initial.

(** The small platform with a reader for [package.json] documents. *)
Definition package_document : json nat :=
  JObject [("name", JString "iobroker.test"); ("version", JString "1.0.0")].

Definition package_documents : list (json nat) :=
  [package_document;
   JObject [("name", JString "test")];
   JObject [("version", JString "1.0.0")]].

Definition posix_package_parse (text : string) : string + json nat :=
  match List.find (fun d => String.eqb (posix_stringify d) text) package_documents with
  | Some d => inr d
  | None => posix_parse text
  end.

Definition posix_package : Platform := {|
  path_join := posix_join;
  path_dirname := posix_dirname;
  path_basename := posix_basename;
  number := nat;
  three := 3;
  number_strict_eq := Nat.eqb;
  JSON_parse := posix_package_parse;
  JSON_stringify := posix_stringify;
  acorn_tokenizer := fun text => posix_lex text 1 0 false;
  generator_toJSON := posix_toJSON;
|}.

Definition project : @state posix_package :=
  {| fs := <["/work/package.json" := File (posix_stringify package_document)]> tree;
     log := []; ready := false; ignoreFiles := []; pending := [] |}.

(** * Properties *)

(** Unfolds the computations down to matches on the state. *)
Ltac run :=
  cbv [patchSourcemap addSourcemap addSourcemap_try createIdentitySourcemap
       identityGenerator readJson copyFile try_catch bind ret throw lift
       readFile writeFile unlinkSync existsSync log_debug log_warn].

Lemma append_assoc (a b c : string) : (a +:+ b) +:+ c = a +:+ b +:+ c.
Proof.
  induction a as [|x a IH]; [reflexivity|].
  change (String x ((a +:+ b) +:+ c) = String x (a +:+ b +:+ c)).
  now rewrite IH.
Qed.

Lemma endsWith_refl (s : string) : endsWith s s = true.
Proof. destruct s; cbn [endsWith]; rewrite String.eqb_refl; reflexivity. Qed.

Lemma endsWith_tail (s suffix : string) (c : ascii) :
  endsWith s (String c suffix) = true -> endsWith s suffix = true.
Proof.
  induction s as [|x s IH]; intros H.
  - discriminate H.
  - cbn [endsWith] in *. apply orb_true_iff in H as [H | H].
    + apply String.eqb_eq in H. injection H as -> ->.
      rewrite endsWith_refl. apply orb_true_r.
    + rewrite (IH H). apply orb_true_r.
Qed.

(** ** [patchSourcemap] *)

Section SourceMapProperties.
Context {P : Platform}.

Lemma assign_assign {A} (key : string) (v : A) (props : list (string * A)) :
  assign key v (assign key v props) = assign key v props.
Proof.
  induction props as [|[k x] props IH]; simpl.
  - rewrite String.eqb_refl. reflexivity.
  - destruct (String.eqb k key) eqn:E; simpl; rewrite E; [reflexivity|].
    now rewrite IH.
Qed.

Lemma assoc_assign_ne {A} (key key' : string) (v : A) (props : list (string * A)) :
  key <> key' -> assoc key' (assign key v props) = assoc key' props.
Proof.
  intros Hne. induction props as [|[k x] props IH]; simpl.
  - destruct (String.eqb key key') eqn:E; [|reflexivity].
    apply String.eqb_eq in E. contradiction.
  - destruct (String.eqb k key) eqn:E; simpl.
    + apply String.eqb_eq in E. subst k.
      destruct (String.eqb key key') eqn:E'; [|reflexivity].
      apply String.eqb_eq in E'. contradiction.
    + now rewrite IH.
Qed.

Lemma patchDocument_idempotent (src : string) (data : json number) :
  patchDocument src (patchDocument src data) = patchDocument src data.
Proof.
  unfold patchDocument, setProperty. destruct data; try reflexivity.
  now rewrite assign_assign.
Qed.

Lemma patchDocument_version (src : string) (data : json number) :
  getProperty (patchDocument src data) "version" = getProperty data "version".
Proof.
  unfold patchDocument, setProperty, getProperty. destruct data; try reflexivity.
  f_equal. apply assoc_assign_ne. discriminate.
Qed.

Lemma patchSourcemap_fs (src dest : string) (st : state) :
  fs (snd (patchSourcemap src dest st)) = patchedFs src dest (fs st).
Proof.
  run. unfold patchedFs.
  destruct (fs st !! src) as [[text|]|]; try reflexivity.
  destruct (JSON_parse text) as [msg|data]; try reflexivity.
  destruct (getProperty data "version") as [version|e]; try reflexivity.
  destruct (isThree version); cbn [negb]; try reflexivity.
  destruct (fs st !! path_dirname dest) as [[?|]|]; try reflexivity.
  destruct (fs st !! dest) as [[?|]|]; reflexivity.
Qed.

(** [patchSourcemap] catches whatever its [try] block throws. *)
Lemma patchSourcemap_returns (src dest : string) (st : state) :
  fst (patchSourcemap src dest st) = Ok tt.
Proof.
  run.
  destruct (fs st !! src) as [[text|]|]; try reflexivity.
  destruct (JSON_parse text) as [msg|data]; try reflexivity.
  destruct (getProperty data "version") as [version|e]; try reflexivity.
  destruct (isThree version); cbn [negb]; try reflexivity.
  destruct (fs st !! path_dirname dest) as [[?|]|]; try reflexivity.
  destruct (fs st !! dest) as [[?|]|]; reflexivity.
Qed.

(** Either nothing is written, or the patched document goes to [dest]. *)
Lemma patchedFs_cases (src dest : string) (f : gmap string node) :
  patchedFs src dest f = f \/
  exists text data version,
    f !! src = Some (File text) /\ JSON_parse text = inr data /\
    getProperty data "version" = Ok version /\ isThree version = true /\
    f !! path_dirname dest = Some Dir /\ f !! dest <> Some Dir /\
    patchedFs src dest f = <[dest := File (JSON_stringify (patchDocument src data))]> f.
Proof.
  unfold patchedFs.
  destruct (f !! src) as [[text|]|] eqn:Hsrc; auto.
  destruct (JSON_parse text) as [msg|data] eqn:Hparse; auto.
  destruct (getProperty data "version") as [version|e] eqn:Hv; auto.
  destruct (isThree version) eqn:H3; auto.
  destruct (f !! path_dirname dest) as [[?|]|] eqn:Hdir; auto.
  destruct (f !! dest) as [[?|]|] eqn:Hdest; auto;
    right; exists text, data, version; repeat split; auto; congruence.
Qed.

(** A second run over the same source and destination writes nothing new,
    whatever the first run did, as long as it did not overwrite its own
    input. *)
Lemma patchedFs_twice (src dest : string) (f : gmap string node) :
  src <> dest -> patchedFs src dest (patchedFs src dest f) = patchedFs src dest f.
Proof.
  intros Hne.
  destruct (patchedFs_cases src dest f)
    as [Hid | (text & data & version & Hsrc & Hparse & Hv & H3 & Hdir & Hdest & Heq)].
  - now rewrite !Hid.
  - rewrite Heq. unfold patchedFs.
    rewrite (lookup_insert_ne f dest src) by congruence.
    rewrite Hsrc, Hparse, Hv, H3.
    assert (path_dirname dest <> dest) by (intros E; rewrite E in Hdir; congruence).
    rewrite (lookup_insert_ne f dest (path_dirname dest)) by congruence.
    rewrite Hdir, lookup_insert_eq. apply insert_insert_eq.
Qed.

(** C8: [patchSourcemap] is idempotent on the source root.  For a document
    [data] of version 3 read from [src], rewriting its source root twice
    gives the document that rewriting it once gives, and running
    [patchSourcemap src dest] a second time leaves the file system as the
    first run left it.  When [src] and [dest] are the same path the second
    run reads what the first wrote, and then [JSON.parse] has to read back
    what [JSON.stringify] printed. *)
Theorem patchSourcemap_idempotent (src dest text : string) (data : json number)
    (version : option (json number)) (st : state) :
  fs st !! src = Some (File text) ->
  JSON_parse text = inr data ->
  getProperty data "version" = Ok version ->
  isThree version = true ->
  (src = dest ->
   JSON_parse (JSON_stringify (patchDocument src data)) = inr (patchDocument src data)) ->
  patchDocument src (patchDocument src data) = patchDocument src data /\
  fs (snd (patchSourcemap src dest (snd (patchSourcemap src dest st))))
  = fs (snd (patchSourcemap src dest st)).
Proof.
  intros Hsrc Hparse Hv H3 Hround. split; [apply patchDocument_idempotent|].
  rewrite !patchSourcemap_fs.
  destruct (decide (src = dest)) as [<-|Hne]; [|now apply patchedFs_twice].
  specialize (Hround eq_refl).
  destruct (patchedFs_cases src src (fs st))
    as [Hid | (text' & data' & version' & Hsrc' & Hparse' & Hv' & _ & Hdir & Hdest & Heq)].
  - now rewrite !Hid.
  - assert (text' = text) by congruence. subst text'.
    assert (data' = data) by congruence. subst data'.
    rewrite Heq. unfold patchedFs.
    rewrite lookup_insert_eq, Hround, patchDocument_version, Hv, H3.
    assert (path_dirname src <> src) by (intros E; rewrite E in Hdir; congruence).
    rewrite (lookup_insert_ne (fs st) src (path_dirname src)) by congruence.
    rewrite Hdir, patchDocument_idempotent. apply insert_insert_eq.
Qed.

(** C2, as the code has it: for a document whose version is not 3,
    [patchSourcemap] raises the unsupported-version error inside its [try]
    block, catches it, logs the warning [Couldn't patch <dest>: <error>] and
    returns normally; nothing is written, the state changes in the log
    only. *)
Theorem patchSourcemap_unsupported_version (src dest text : string)
    (data : json number) (version : option (json number)) (st : state) :
  fs st !! src = Some (File text) ->
  JSON_parse text = inr data ->
  getProperty data "version" = Ok version ->
  isThree version = false ->
  patchSourcemap src dest st
  = (Ok tt,
     with_log (log st ++ [LogWarn ("Couldn't patch " +:+ dest +:+ ": ")
                                  (Some (UnsupportedVersion version))]) st)
  /\ fs (snd (patchSourcemap src dest st)) = fs st.
Proof.
  intros Hsrc Hparse Hv H3.
  assert (Hrun : patchSourcemap src dest st
    = (Ok tt,
       with_log (log st ++ [LogWarn ("Couldn't patch " +:+ dest +:+ ": ")
                                    (Some (UnsupportedVersion version))]) st)).
  { run. rewrite Hsrc, Hparse, Hv, H3. reflexivity. }
  split; [exact Hrun|]. rewrite Hrun. reflexivity.
Qed.

End SourceMapProperties.

(** ** The mappings that source-map serializes *)

Lemma Forall_insertSorted (Q : Mapping -> Prop) (m : Mapping) (l : list Mapping) :
  Q m -> Forall Q l -> Forall Q (insertSorted m l).
Proof.
  intros Hm. induction 1 as [|x l Hx Hl IH]; cbn [insertSorted].
  - repeat constructor. exact Hm.
  - destruct (compareByGeneratedPositionsInflated m x); repeat constructor; auto.
Qed.

Lemma Forall_sortMappings (Q : Mapping -> Prop) (l : list Mapping) :
  Forall Q l -> Forall Q (sortMappings l).
Proof.
  induction 1 as [|x l Hx Hl IH]; cbn [sortMappings]; [constructor|].
  now apply Forall_insertSorted.
Qed.

Lemma length_insertSorted (m : Mapping) (l : list Mapping) :
  length (insertSorted m l) = S (length l).
Proof.
  induction l as [|x l IH]; cbn [insertSorted]; [reflexivity|].
  destruct (compareByGeneratedPositionsInflated m x); cbn [length]; now rewrite ?IH.
Qed.

Lemma length_sortMappings (l : list Mapping) : length (sortMappings l) = length l.
Proof.
  induction l as [|x l IH]; cbn [sortMappings]; [reflexivity|].
  rewrite length_insertSorted. cbn [length]. now rewrite IH.
Qed.

Lemma Forall_serializeFrom (Q : Mapping -> Prop) (sources : list string)
    (l : list Mapping) :
  Forall Q l ->
  forall previous before, Forall Q (map fst (serializeFrom sources previous before l)).
Proof.
  induction 1 as [|m l Hm Hl IH]; intros previous before; cbn [serializeFrom];
    [constructor|].
  destruct (_ && _); [apply IH|]. cbn [map fst]. constructor; [exact Hm | apply IH].
Qed.

Lemma length_serializeFrom (sources : list string) (l : list Mapping) :
  forall previous before,
  length (serializeFrom sources previous before l) <= length l.
Proof.
  induction l as [|m l IH]; intros previous before; cbn [serializeFrom]; [reflexivity|].
  destruct (_ && _); cbn [length].
  - specialize (IH previous (Some m)). lia.
  - match goal with |- S (length (serializeFrom _ ?p ?b _)) <= _ =>
      specialize (IH p b) end. lia.
Qed.

(** Every mapping of the map was added to the generator. *)
Lemma Forall_serializedMappings (Q : Mapping -> Prop) (g : SourceMapGenerator) :
  Forall Q (gen_mappings g) -> Forall Q (serializedMappings g).
Proof.
  intros H. unfold serializedMappings, serializedSegments.
  apply Forall_serializeFrom. unfold toArray.
  destruct (addedInOrder None (gen_mappings g)); [exact H | now apply Forall_sortMappings].
Qed.

Lemma length_serializedMappings (g : SourceMapGenerator) :
  length (serializedMappings g) <= length (gen_mappings g).
Proof.
  unfold serializedMappings, serializedSegments. rewrite length_map.
  etransitivity; [apply length_serializeFrom|]. unfold toArray.
  destruct (addedInOrder None (gen_mappings g)); [reflexivity|].
  now rewrite length_sortMappings.
Qed.

(** A mapping generated after another one is not equal to it, and
    [MappingList] takes it as in order. *)
Lemma positionBefore_compare (a m : Mapping) :
  positionBefore (generated a) (generated m) = true ->
  compareByGeneratedPositionsInflated m a = Gt /\ generatedPositionAfter a m = true.
Proof.
  unfold positionBefore, compareByGeneratedPositionsInflated, generatedPositionAfter.
  intros [H | [H1 H2]%andb_true_iff]%orb_true_iff.
  - apply Nat.ltb_lt in H. split.
    + rewrite (proj2 (Nat.compare_gt_iff _ _) H). reflexivity.
    + rewrite (proj2 (Nat.ltb_lt _ _) H). reflexivity.
  - apply Nat.eqb_eq in H1. apply Nat.ltb_lt in H2. split.
    + rewrite H1, Nat.compare_refl. cbn [thenCompare].
      rewrite (proj2 (Nat.compare_gt_iff _ _) H2). reflexivity.
    + rewrite H1, Nat.eqb_refl, (proj2 (Nat.leb_le _ _)) by lia.
      cbn. now rewrite orb_true_r.
Qed.

Lemma ascendingFrom_cons (before : option Mapping) (m : Mapping) (l : list Mapping) :
  ascendingFrom before (m :: l) = true ->
  match before with
  | Some a => positionBefore (generated a) (generated m) = true
  | None => True
  end /\ ascendingFrom (Some m) l = true.
Proof.
  destruct before as [a|]; cbn [ascendingFrom map ascending].
  - intros [H1 H2]%andb_true_iff. auto.
  - auto.
Qed.

Lemma addedInOrder_ascending (l : list Mapping) :
  forall before, ascendingFrom before l = true -> addedInOrder before l = true.
Proof.
  induction l as [|m l IH]; intros before H; [reflexivity|].
  apply ascendingFrom_cons in H as [Hm Hl]. cbn [addedInOrder].
  destruct before as [a|]; [|now apply IH].
  rewrite (proj2 (positionBefore_compare _ _ Hm)). now apply IH.
Qed.

Lemma serializeFrom_ascending (sources : list string) (l : list Mapping) :
  forall previous before,
  ascendingFrom before l = true ->
  map fst (serializeFrom sources previous before l) = l.
Proof.
  induction l as [|m l IH]; intros previous before H; [reflexivity|].
  apply ascendingFrom_cons in H as [Hm Hl]. cbn [serializeFrom].
  assert (match before with
          | Some a => match compareByGeneratedPositionsInflated m a with
                      | Eq => true
                      | _ => false
                      end
          | None => false
          end = false) as ->.
  { destruct before as [a|]; [|reflexivity].
    now rewrite (proj1 (positionBefore_compare _ _ Hm)). }
  rewrite andb_false_r. cbn [map fst]. f_equal. now apply IH.
Qed.

(** When each mapping was generated after the one before it, the map has
    them all. *)
Lemma serializedMappings_ascending (g : SourceMapGenerator) :
  ascending (map generated (gen_mappings g)) = true ->
  serializedMappings g = gen_mappings g.
Proof.
  intros H. unfold serializedMappings, serializedSegments, toArray.
  rewrite (addedInOrder_ascending _ None H).
  now apply serializeFrom_ascending.
Qed.

(** The sources of a generator whose mappings have one source. *)
Lemma gen_sources_one (filename : string) (g : SourceMapGenerator) :
  Forall (fun m => source m = filename) (gen_mappings g) ->
  gen_sources g = match gen_mappings g with [] => [] | _ => [filename] end.
Proof.
  unfold gen_sources. destruct (gen_mappings g) as [|m l]; [reflexivity|].
  intros H. inversion H as [|? ? Hm Hl]; subst. cbn [fold_left].
  change (if includes [] (source m) then [] else ([] ++ [source m])%list)
    with [source m].
  assert (includes [source m] (source m) = true) as Hin
    by apply bool_decide_eq_true_2, list_elem_of_here.
  clear H. induction Hl as [|x l Hx Hl IH]; [reflexivity|].
  cbn [fold_left]. rewrite Hx, Hin. exact IH.
Qed.

Lemma tokenMappings_generated (filename : string) (tokens : list Token) :
  map generated (tokenMappings filename tokens) = tokenStarts tokens.
Proof.
  unfold tokenMappings, tokenStarts.
  induction tokens as [|t tokens IH]; [reflexivity|].
  cbn [omap list_omap]. destruct (loc t) as [l|]; cbn; now rewrite ?IH.
Qed.

(** ** [createIdentitySourcemap] and [addSourcemap] *)

Section IdentityMapProperties.
Context {P : Platform}.

Lemma tokenMappings_identity (filename : string) (tokens : list Token) :
  Forall (fun m => generated m = original m /\ source m = filename)
         (tokenMappings filename tokens).
Proof.
  induction tokens as [|t tokens IH]; [constructor|].
  unfold tokenMappings in *. cbn [omap list_omap].
  destruct (loc t) as [l|]; cbn; [constructor; [split; reflexivity | exact IH] | exact IH].
Qed.

Lemma tokenMappings_located (filename : string) (tokens : list Token) :
  Forall (fun t => is_Some (loc t)) tokens ->
  Forall2 (fun t m => exists l, loc t = Some l /\
                                original m = loc_start l /\ generated m = loc_start l)
          tokens (tokenMappings filename tokens).
Proof.
  induction 1 as [|t tokens [l Hl] _ IH]; [constructor|].
  unfold tokenMappings in *. cbn [omap list_omap]. rewrite Hl. cbn.
  constructor; [exists l; auto | exact IH].
Qed.

(** The loop adds one mapping per token and stops at the end of the
    stream. *)
Lemma addTokenMappings_lexes (filename : string) (tokenizer : TokenStream) :
  forall generator,
  lexes tokenizer = true ->
  Forall (fun t => is_Some (loc t)) (lexicalTokens tokenizer) ->
  addTokenMappings filename tokenizer generator
  = Ok {| gen_file := gen_file generator;
          gen_mappings := gen_mappings generator
                          ++ tokenMappings filename (lexicalTokens tokenizer) |}.
Proof.
  induction tokenizer as [t rest IH|msg|eofLoc]; intros [file ms] Hlex Hloc;
    cbn [addTokenMappings lexes lexicalTokens gen_file gen_mappings] in *.
  - destruct (String.eqb (type_label t) "eof").
    + unfold tokenMappings. cbn. now rewrite app_nil_r.
    + cbn [orb] in Hlex. inversion Hloc as [|? ? [l Hl] Hrest]; subst.
      rewrite Hl, (IH _ Hlex Hrest). unfold tokenMappings, addMapping.
      cbn [omap list_omap gen_file gen_mappings]. rewrite Hl. cbn.
      now rewrite <- app_assoc.
  - discriminate Hlex.
  - unfold tokenMappings. cbn. now rewrite app_nil_r.
Qed.

(** A syntax error leaves no generator behind. *)
Lemma addTokenMappings_syntax_error (filename : string) (tokenizer : TokenStream) :
  forall generator,
  lexes tokenizer = false ->
  Forall (fun t => is_Some (loc t)) (lexicalTokens tokenizer) ->
  exists msg, addTokenMappings filename tokenizer generator = Throw (SyntaxError msg).
Proof.
  induction tokenizer as [t rest IH|msg|eofLoc]; intros g Hlex Hloc;
    cbn [addTokenMappings lexes lexicalTokens] in *.
  - destruct (String.eqb (type_label t) "eof"); [discriminate Hlex|].
    cbn [orb] in Hlex. inversion Hloc as [|? ? [l Hl] Hrest]; subst.
    rewrite Hl. now apply IH.
  - now exists msg.
  - discriminate Hlex.
Qed.

(** C3, as the code has it: let the file at the path [src], taken with
    forward slashes, hold [text], and let acorn locate its tokens, as
    [locations: true] asks.  When acorn tokenizes [text] to the end,
    [createIdentitySourcemap] adds one mapping for each lexical token before
    the end-of-stream token, with the start of the token as generated and as
    original position and that path as source, and returns
    [generator.toJSON()].  The mappings of this map are those that
    source-map serializes: each of them was added, so it has its generated
    position equal to its original position and that path as source, and a
    mapping equal to the one before it is left out; there are at most as
    many as tokens, and as many when every token starts after the token
    before it.  With the [toJSON] of source-map the map is the document
    [{ version: 3, sources, names: [], mappings, file }] whose [mappings] are
    the segments of these mappings.  When acorn raises a syntax error,
    [createIdentitySourcemap] throws it and there is no map. *)
Theorem createIdentitySourcemap_identity (src text : string) (st : state) :
  let filename := replaceBackslashes src in
  let tokens := lexicalTokens (acorn_tokenizer text) in
  fs st !! filename = Some (File text) ->
  Forall (fun t => is_Some (loc t)) tokens ->
  (lexes (acorn_tokenizer text) = true ->
   exists generator,
     createIdentitySourcemap filename st = (Ok (generator_toJSON generator), st) /\
     gen_file generator = filename /\
     Forall2 (fun t m => exists l, loc t = Some l /\
                                   original m = loc_start l /\
                                   generated m = loc_start l /\
                                   source m = filename)
             tokens (gen_mappings generator) /\
     Forall (fun m => generated m = original m /\ source m = filename /\
                      m ∈ gen_mappings generator)
            (serializedMappings generator) /\
     length (serializedMappings generator) <= length tokens /\
     (ascending (tokenStarts tokens) = true ->
      serializedMappings generator = gen_mappings generator /\
      length (serializedMappings generator) = length tokens) /\
     ((forall g, generator_toJSON g = toJSON g) ->
      generator_toJSON generator
      = JObject [("version", JNumber three);
                 ("sources",
                  JArray (match tokens with [] => [] | _ => [JString filename] end));
                 ("names", JArray []);
                 ("mappings", JString (serializeMappings generator));
                 ("file", JString filename)])) /\
  (lexes (acorn_tokenizer text) = false ->
   exists msg,
     createIdentitySourcemap filename st = (Throw (SyntaxError msg), st)).
Proof.
  intros filename tokens Hread Hloc. split.
  - intros Hlex.
    exists {| gen_file := filename; gen_mappings := tokenMappings filename tokens |}.
    pose proof (tokenMappings_located filename _ Hloc) as Hall.
    pose proof (tokenMappings_identity filename tokens) as Hid.
    pose proof (Forall2_length _ _ _ Hall) as Hlen.
    cbn [gen_file gen_mappings].
    split; [|split; [reflexivity|split; [|split; [|split; [|split]]]]].
    + run. rewrite Hread. unfold tokens.
      rewrite (addTokenMappings_lexes _ _ _ Hlex Hloc). reflexivity.
    + clear -Hall Hid. induction Hall as [|t m ts ms (l & Hl & Ho & Hg) _ IH];
        [constructor|].
      inversion Hid as [|? ? [_ Hs] Hid']; subst.
      constructor; [exists l; auto | now apply IH].
    + apply Forall_serializedMappings. cbn [gen_mappings].
      apply Forall_forall. intros m Hm.
      destruct (proj1 (Forall_forall _ _) Hid m Hm) as [H1 H2]. auto.
    + etransitivity; [apply length_serializedMappings|]. cbn [gen_mappings].
      now rewrite Hlen.
    + intros Hasc.
      assert (serializedMappings
                {| gen_file := filename; gen_mappings := tokenMappings filename tokens |}
              = tokenMappings filename tokens) as E.
      { apply serializedMappings_ascending. cbn [gen_mappings].
        now rewrite tokenMappings_generated. }
      split; [exact E | now rewrite E].
    + intros HtoJSON. rewrite HtoJSON. unfold toJSON. cbn [gen_file].
      rewrite (gen_sources_one filename).
      2:{ cbn [gen_mappings]. eapply Forall_impl; [exact Hid|]. now intros m [_ ?]. }
      cbn [gen_mappings]. destruct Hall; reflexivity.
  - intros Hlex.
    destruct (addTokenMappings_syntax_error filename _ (newSourceMapGenerator filename)
                Hlex Hloc) as [msg Hmsg].
    exists msg. run. rewrite Hread. fold filename in Hmsg |- *.
    unfold tokens in *. now rewrite Hmsg.
Qed.

Lemma try_catch_returns (body : M unit) (handler : error -> M unit) (st : state) :
  (forall e st', fst (handler e st') = Ok tt) ->
  fst (try_catch body handler st) = Ok tt.
Proof.
  intros Hh. unfold try_catch.
  destruct (body st) as [[[]|e] st']; [reflexivity | apply Hh].
Qed.

Lemma addSourcemap_returns (src dest : string) (copyFromSrc : bool) (st : state) :
  fst (addSourcemap src dest copyFromSrc st) = Ok tt.
Proof. unfold addSourcemap. apply try_catch_returns. reflexivity. Qed.

(** C7: [addSourcemap] never throws to its caller: whatever its [try] block
    throws (reading the source, tokenizing it, writing the map or the
    destination), the [catch] logs the warning
    [Couldn't reverse map for <src>: <error>] and the call returns. *)
Theorem addSourcemap_catches (src dest : string) (copyFromSrc : bool) (st : state) :
  fst (addSourcemap src dest copyFromSrc st) = Ok tt /\
  (forall e st',
     addSourcemap_try src dest copyFromSrc st = (Throw e, st') ->
     addSourcemap src dest copyFromSrc st
     = (Ok tt,
        with_log (log st' ++ [LogWarn ("Couldn't reverse map for " +:+ src +:+ ": ")
                                      (Some e)]) st')) /\
  (forall st',
     addSourcemap_try src dest copyFromSrc st = (Ok tt, st') ->
     addSourcemap src dest copyFromSrc st = (Ok tt, st')).
Proof.
  split; [apply addSourcemap_returns|]. unfold addSourcemap, try_catch.
  split; intros; rewrite H; reflexivity.
Qed.

(** The three stages of the [try] block can each throw. *)
Lemma addSourcemap_try_unreadable (src dest : string) (copyFromSrc : bool) (st : state) :
  fs st !! replaceBackslashes src = None ->
  addSourcemap_try src dest copyFromSrc st
  = (Throw (ErrnoException ENOENT (replaceBackslashes src)), st).
Proof. intros H. run. rewrite H. reflexivity. Qed.

Lemma addSourcemap_try_syntax_error (src dest text msg : string)
    (copyFromSrc : bool) (st : state) :
  fs st !! replaceBackslashes src = Some (File text) ->
  acorn_tokenizer text = TokSyntaxError msg ->
  addSourcemap_try src dest copyFromSrc st = (Throw (SyntaxError msg), st).
Proof. intros H Ht. run. rewrite H, Ht. reflexivity. Qed.

Lemma addSourcemap_try_unwritable (src dest text : string)
    (copyFromSrc : bool) (st : state) :
  fs st !! replaceBackslashes src = Some (File text) ->
  lexes (acorn_tokenizer text) = true ->
  Forall (fun t => is_Some (loc t)) (lexicalTokens (acorn_tokenizer text)) ->
  fs st !! path_dirname (dest +:+ ".map") = None ->
  addSourcemap_try src dest copyFromSrc st
  = (Throw (ErrnoException ENOENT (dest +:+ ".map")), st).
Proof.
  intros H Hlex Hloc Hdir. run.
  rewrite H, (addTokenMappings_lexes _ _ _ Hlex Hloc), Hdir. reflexivity.
Qed.

(** What a successful [try] block leaves in the file system: the map beside
    the destination, and in the destination the content that was read, with
    its reference to the map. *)
Lemma addSourcemap_try_fs (src dest : string) (copyFromSrc : bool) (st st' : state) :
  addSourcemap_try src dest copyFromSrc st = (Ok tt, st') ->
  exists data fileContent,
    let mapFile := dest +:+ ".map" in
    let withMap := <[mapFile := File (JSON_stringify data)]> (fs st) in
    createIdentitySourcemap (replaceBackslashes src) st = (Ok data, st) /\
    withMap !! (if copyFromSrc then src else dest) = Some (File fileContent) /\
    fs st' = <[dest := File (updatedContent fileContent (path_basename mapFile))]> withMap.
Proof.
  unfold addSourcemap_try. cbv [bind].
  destruct (createIdentitySourcemap (replaceBackslashes src) st) as [[data|e] st1] eqn:Hc;
    [|discriminate].
  assert (st1 = st) as ->.
  { revert Hc. run. destruct (fs st !! replaceBackslashes src) as [[?|]|]; try discriminate.
    destruct (addTokenMappings _ _ _); [|discriminate]. now intros [= _ <-]. }
  unfold writeFile at 1.
  destruct (fs st !! path_dirname (dest +:+ ".map")) as [[?|]|]; try discriminate.
  destruct (fs st !! (dest +:+ ".map")) as [[?|]|];
    try discriminate; cbv [readFile with_fs fs];
    match goal with
    | |- context [?m !! (if copyFromSrc then src else dest)] =>
        destruct (m !! (if copyFromSrc then src else dest)) as [[fileContent|]|] eqn:Hread
    end; try discriminate;
    cbv [writeFile with_fs fs log_debug];
    match goal with
    | |- context [match ?m !! path_dirname dest with _ => _ end] =>
        destruct (m !! path_dirname dest) as [[?|]|]; try discriminate;
        destruct (m !! dest) as [[?|]|]; try discriminate
    end;
    intros [= <-]; exists data, fileContent; cbn; auto.
Qed.

End IdentityMapProperties.

(** ** The reference comment *)

Lemma replaceReference_none (fileContent filename : string) :
  searchReference fileContent = None ->
  replaceReference fileContent filename = fileContent.
Proof. intros H. unfold replaceReference. now rewrite H. Qed.



(** A file with line feeds only gets a line feed. *)
Example updatedContent_lf :
  updatedContent ("let x" +:+ LF +:+ "x") "main.js.map"
  = "let x" +:+ LF +:+ "x" +:+ LF +:+ "//# sourceMappingURL=main.js.map".
Proof. reflexivity. Qed.

(** An existing reference is replaced in place. *)
Example updatedContent_replaces :
  updatedContent ("x" +:+ LF +:+ "//# sourceMappingURL=old.map" +:+ LF) "main.js.map"
  = "x" +:+ LF +:+ "//# sourceMappingURL=main.js.map" +:+ LF.
Proof. reflexivity. Qed.

Lemma createIdentitySourcemap_identity_witness :
  let src := "\work\main.js" in
  let text := "let x" +:+ CRLF +:+ "x" in
  fs scripts !! replaceBackslashes src = Some (File text) /\
  lexes (acorn_tokenizer (Platform := posix_sourcemap) text) = true /\
  exists generator,
    createIdentitySourcemap (P := posix_sourcemap) "/work/main.js" scripts
    = (Ok (toJSON generator), scripts) /\
    gen_file generator = "/work/main.js" /\
    serializedMappings generator = gen_mappings generator /\
    length (serializedMappings generator) = 3 /\
    toJSON (P := posix_sourcemap) generator
    = JObject [("version", JNumber 3);
               ("sources", JArray [JString "/work/main.js"]);
               ("names", JArray []);
               ("mappings", JString (serializeMappings generator));
               ("file", JString "/work/main.js")].
Proof.
  intros src text.
  assert (Hread : fs scripts !! replaceBackslashes src = Some (File text))
    by (vm_compute; reflexivity).
  assert (Hlex : lexes (acorn_tokenizer (Platform := posix_sourcemap) text) = true)
    by reflexivity.
  assert (Hloc : Forall (fun t => is_Some (loc t))
                   (lexicalTokens (acorn_tokenizer (Platform := posix_sourcemap) text))).
  { repeat (constructor; [eexists; reflexivity|]). constructor. }
  split; [exact Hread | split; [exact Hlex|]].
  destruct (proj1 (@createIdentitySourcemap_identity posix_sourcemap src text scripts
                     Hread Hloc) Hlex)
    as (generator & Hrun & Hfile & _ & _ & _ & Hasc & Hjson).
  exists generator.
  split; [exact Hrun|]. split; [exact Hfile|].
  split; [exact (proj1 (Hasc eq_refl))|]. split; [exact (proj2 (Hasc eq_refl))|].
  exact (Hjson (fun g => eq_refl)).
Defined.

(** [createIdentitySourcemap] on a file that can be read. *)
Lemma createIdentitySourcemap_reads {P : Platform} (filename text : string) (st : state) :
  fs st !! filename = Some (File text) ->
  createIdentitySourcemap filename st
  = (match addTokenMappings filename (acorn_tokenizer text)
             (newSourceMapGenerator filename) with
     | Ok generator => Ok (generator_toJSON generator)
     | Throw e => Throw e
     end, st).
Proof. intros H. run. rewrite H. now destruct (addTokenMappings _ _ _). Qed.

(** The map of [main.js], whose three tokens start at 1:0, 1:4 and 2:0. *)
Example createIdentitySourcemap_main :
  createIdentitySourcemap (P := posix_sourcemap) "/work/main.js" scripts
  = (Ok (JObject [("version", JNumber 3);
                  ("sources", JArray [JString "/work/main.js"]);
                  ("names", JArray []);
                  ("mappings", JString "AAAA,IAAI;AACJ");
                  ("file", JString "/work/main.js")]),
     scripts).
Proof.
  rewrite (createIdentitySourcemap_reads "/work/main.js" ("let x" +:+ CRLF +:+ "x"))
    by (vm_compute; reflexivity).
  f_equal.
Qed.

(** C3 as stated fails.  The empty template literal has three lexical
    tokens, a backquote at 1:0, a template of no characters at 1:1 and a
    backquote at 1:1; three mappings are added and the map has two, since the
    third equals the second.  And [bad.js] is an input text with no map:
    acorn raises a syntax error, which [createIdentitySourcemap] throws. *)
Lemma createIdentitySourcemap_repeated_start :
  let tokens := lexicalTokens (acorn_tokenizer (Platform := posix_sourcemap) "``") in
  let generator :=
    {| gen_file := "/work/quote.js";
       gen_mappings := tokenMappings "/work/quote.js" tokens |} in
  fs scripts !! "/work/quote.js" = Some (File "``") /\
  length tokens = 3 /\
  createIdentitySourcemap (P := posix_sourcemap) "/work/quote.js" scripts
  = (Ok (toJSON generator), scripts) /\
  length (gen_mappings generator) = 3 /\
  length (serializedMappings generator) = 2 /\
  toJSON (P := posix_sourcemap) generator
  = JObject [("version", JNumber 3);
             ("sources", JArray [JString "/work/quote.js"]);
             ("names", JArray []);
             ("mappings", JString "AAAA,CAAC");
             ("file", JString "/work/quote.js")] /\
  fs scripts !! "/work/bad.js" = Some (File "let @") /\
  createIdentitySourcemap (P := posix_sourcemap) "/work/bad.js" scripts
  = (Throw (SyntaxError "Unexpected character '@'"), scripts).
Proof.
  intros tokens generator.
  assert (fs scripts !! "/work/quote.js" = Some (File "``")) as Hquote
    by (vm_compute; reflexivity).
  assert (fs scripts !! "/work/bad.js" = Some (File "let @")) as Hbad
    by (vm_compute; reflexivity).
  split; [exact Hquote|]. split; [reflexivity|].
  split; [now rewrite (createIdentitySourcemap_reads _ _ _ Hquote)|].
  split; [reflexivity|]. split; [vm_compute; reflexivity|].
  split; [vm_compute; reflexivity|]. split; [exact Hbad|].
  now rewrite (createIdentitySourcemap_reads _ _ _ Hbad).
Qed.

(** ** The handlers of [startFileSync] *)

Section FileSyncProperties.
Context {P : Platform}.
Variable this : DevServer.
Variable destinationDir : string.

Lemma keeps_bind {A B} (c : M A) (k : A -> M B) :
  keeps_session c -> (forall a, keeps_session (k a)) -> keeps_session (bind c k).
Proof.
  intros Hc Hk st. unfold bind. specialize (Hc st).
  destruct (c st) as [[a|e] st']; cbn [snd] in *; [|exact Hc].
  destruct (Hk a st') as (-> & -> & ->). exact Hc.
Qed.

Lemma keeps_try_catch {A} (body : M A) (handler : error -> M A) :
  keeps_session body -> (forall e, keeps_session (handler e)) ->
  keeps_session (try_catch body handler).
Proof.
  intros Hb Hh st. unfold try_catch. specialize (Hb st).
  destruct (body st) as [[a|e] st']; cbn [snd] in *; [exact Hb|].
  destruct (Hh e st') as (-> & -> & ->). exact Hb.
Qed.

Lemma keeps_lift {A} (o : outcome A) : keeps_session (lift o).
Proof. intros st. now cbn. Qed.

Lemma keeps_ret {A} (a : A) : keeps_session (ret a).
Proof. intros st. now cbn. Qed.

Lemma keeps_throw {A} (e : error) : keeps_session (throw (A := A) e).
Proof. intros st. now cbn. Qed.

Lemma keeps_log_debug (msg : string) : keeps_session (log_debug msg).
Proof. intros st. now cbn. Qed.

Lemma keeps_log_warn (msg : string) (cause : option error) :
  keeps_session (log_warn msg cause).
Proof. intros st. now cbn. Qed.

Lemma keeps_existsSync (p : string) : keeps_session (existsSync p).
Proof. intros st. now cbn. Qed.

Lemma keeps_readFile (p : string) : keeps_session (readFile p).
Proof. intros st. unfold readFile. now destruct (fs st !! p) as [[?|]|]. Qed.

Lemma keeps_writeFile (p content : string) : keeps_session (writeFile p content).
Proof.
  intros st. unfold writeFile.
  destruct (fs st !! path_dirname p) as [[?|]|]; [now cbn| |now cbn].
  now destruct (fs st !! p) as [[?|]|].
Qed.

Lemma keeps_unlinkSync (p : string) : keeps_session (unlinkSync p).
Proof. intros st. unfold unlinkSync. now destruct (fs st !! p) as [[?|]|]. Qed.

Create HintDb keeps.
#[local] Hint Resolve keeps_lift keeps_ret keeps_throw keeps_log_debug keeps_log_warn
  keeps_existsSync keeps_readFile keeps_writeFile keeps_unlinkSync : keeps.

Ltac keeps :=
  repeat first
    [ apply keeps_bind; [|intros ?]
    | apply keeps_try_catch; [|intros ?]
    | solve [auto with keeps]
    | match goal with
      | |- keeps_session (match ?x with _ => _ end) => destruct x
      | |- keeps_session (if ?b then _ else _) => destruct b
      end ].

Lemma keeps_patchSourcemap (src dest : string) : keeps_session (patchSourcemap src dest).
Proof. unfold patchSourcemap, readJson. keeps. Qed.

Lemma keeps_addSourcemap (src dest : string) (copyFromSrc : bool) :
  keeps_session (addSourcemap src dest copyFromSrc).
Proof.
  unfold addSourcemap, addSourcemap_try, createIdentitySourcemap, identityGenerator.
  keeps.
Qed.

Lemma keeps_syncFile (filename : string) :
  keeps_session (syncFile this destinationDir filename).
Proof.
  unfold syncFile, copyFile.
  pose proof keeps_patchSourcemap. pose proof keeps_addSourcemap. keeps; auto.
Qed.

Lemma syncFile_returns (filename : string) (st : state) :
  fst (syncFile this destinationDir filename st) = Ok tt.
Proof. unfold syncFile. apply try_catch_returns. reflexivity. Qed.

Lemma keeps_syncAll (filenames : list string) :
  keeps_session (syncAll this destinationDir filenames).
Proof.
  induction filenames as [|f rest IH]; cbn [syncAll]; [apply keeps_ret|].
  apply keeps_bind; [apply keeps_syncFile | intros _; exact IH].
Qed.

Lemma syncAll_returns (filenames : list string) (st : state) :
  fst (syncAll this destinationDir filenames st) = Ok tt.
Proof.
  revert st. induction filenames as [|f rest IH]; intros st; [reflexivity|].
  cbn [syncAll]. unfold bind. pose proof (syncFile_returns f st) as Hf.
  destruct (syncFile this destinationDir f st) as [[[]|e] st']; [apply IH | discriminate Hf].
Qed.

(** Settling runs the started calls and touches neither [ready] nor
    [ignoreFiles]. *)
Lemma settle_session (st : state) :
  fst (settle this destinationDir st) = Ok tt /\
  ready (snd (settle this destinationDir st)) = ready st /\
  ignoreFiles (snd (settle this destinationDir st)) = ignoreFiles st /\
  pending (snd (settle this destinationDir st)) = [].
Proof.
  unfold settle. split; [apply syncAll_returns|].
  destruct (keeps_syncAll (pending st) (with_pending [] st)) as (-> & -> & ->).
  now cbn.
Qed.

Lemma settle_idle (st : state) :
  pending st = [] -> settle this destinationDir st = (Ok tt, st).
Proof. intros H. unfold settle. rewrite H. now destruct st; cbn in *; subst. Qed.

(** No handler takes a path out of [ignoreFiles]. *)
Lemma handle_ignoreFiles (ev : event) (filename : string) (st : state) :
  filename ∈ ignoreFiles st ->
  filename ∈ ignoreFiles (snd (handle destinationDir ev st)).
Proof.
  intros Hin. destruct ev as [|f|f|f]; cbn [handle].
  - exact Hin.
  - unfold onAdd. destruct (ready st); [exact Hin|].
    destruct (endsWith f "map"); cbn; [exact Hin|].
    destruct (bool_decide _); cbn; [exact Hin|]. apply elem_of_app. now left.
  - unfold onChange. now destruct (includes (ignoreFiles st) f).
  - assert (K : keeps_session (onUnlink destinationDir f)) by (unfold onUnlink; keeps).
    destruct (K st) as (_ & HK & _). now rewrite HK.
Qed.

Lemma deliver_ignoreFiles (ev : event) (filename : string) (st : state) :
  filename ∈ ignoreFiles st ->
  filename ∈ ignoreFiles (snd (deliver this destinationDir ev st)).
Proof.
  intros Hin. unfold deliver, bind.
  pose proof (handle_ignoreFiles ev filename st Hin) as H.
  destruct (handle destinationDir ev st) as [[[]|e] st']; cbn [snd] in *; [|exact H].
  now destruct (settle_session st') as (_ & _ & -> & _).
Qed.

Lemma deliverAll_ignoreFiles (evs : list event) (filename : string) :
  forall st,
  filename ∈ ignoreFiles st ->
  filename ∈ ignoreFiles (snd (deliverAll this destinationDir evs st)).
Proof.
  induction evs as [|ev evs IH]; intros st Hin; [exact Hin|].
  cbn [deliverAll]. unfold bind.
  pose proof (deliver_ignoreFiles ev filename st Hin) as H.
  destruct (deliver this destinationDir ev st) as [[[]|e] st']; cbn [snd] in *;
    [now apply IH | exact H].
Qed.

Lemma onChange_excluded (filename : string) (st : state) :
  filename ∈ ignoreFiles st -> onChange filename st = (Ok tt, st).
Proof.
  intros Hin. unfold onChange, includes. now rewrite bool_decide_eq_true_2.
Qed.

(** An add event before ready for a file that is no map and is not in the
    destination puts the path into [ignoreFiles]. *)
Lemma onAdd_excludes (filename : string) (st : state) :
  ready st = false ->
  endsWith filename "map" = false ->
  fs st !! inDest destinationDir filename = None ->
  onAdd destinationDir filename st
  = (Ok tt, with_ignoreFiles (ignoreFiles st ++ [filename]) st).
Proof.
  intros Hready Hmap Hdest. unfold onAdd. rewrite Hready, Hmap. cbn [negb].
  cbv [bind existsSync]. rewrite Hdest.
  rewrite bool_decide_eq_false_2 by (intros [? ?]; discriminate). reflexivity.
Qed.

(** C1, as the code has it: a path that the initial scan put into
    [ignoreFiles] stays there whatever events follow, so no later change
    event for it starts [syncFile]: the handler does nothing, and delivering
    the event leaves the state as it was.  Only an add event after ready
    starts [syncFile] for the path. *)
Theorem excluded_file_stays_excluded (filename : string) (evs : list event) (st : state) :
  filename ∈ ignoreFiles st ->
  let st' := snd (deliverAll this destinationDir evs st) in
  filename ∈ ignoreFiles st' /\
  onChange filename st' = (Ok tt, st') /\
  (pending st' = [] ->
   deliver this destinationDir (Change filename) st' = (Ok tt, st')) /\
  (ready st' = true ->
   onAdd destinationDir filename st'
   = (Ok tt, with_pending (pending st' ++ [filename]) st')).
Proof.
  intros Hin st'.
  pose proof (deliverAll_ignoreFiles evs filename st Hin) as Hin'. fold st' in Hin'.
  split; [exact Hin'|]. split; [|split].
  - now apply onChange_excluded.
  - intros Hidle. unfold deliver, bind. cbn [handle].
    rewrite (onChange_excluded _ _ Hin'). now apply settle_idle.
  - intros Hready. unfold onAdd. now rewrite Hready.
Qed.

Lemma bind_ret_unit (c : M unit) (st : state) : bind c (fun _ => ret tt) st = c st.
Proof. unfold bind, ret. now destruct (c st) as [[[]|e] st']. Qed.

Lemma with_pending_same (st : state) : with_pending (pending st) st = st.
Proof. now destruct st. Qed.

(** C10: a change event for a path that is not in [ignoreFiles] starts
    [syncFile] for it, whatever the value of [ready]; with no other call
    outstanding, delivering the event is running [syncFile] on the path.  An
    add event, in contrast, starts nothing while [ready] is false. *)
Theorem onChange_ignores_ready (filename : string) (st : state) :
  filename ∉ ignoreFiles st ->
  onChange filename st = (Ok tt, with_pending (pending st ++ [filename]) st) /\
  (forall b : bool,
     onChange filename (with_ready b st)
     = (Ok tt, with_pending (pending st ++ [filename]) (with_ready b st))) /\
  (pending st = [] ->
   deliver this destinationDir (Change filename) st
   = syncFile this destinationDir filename st) /\
  (ready st = false ->
   pending (snd (onAdd destinationDir filename st)) = pending st).
Proof.
  intros Hnin.
  assert (Hc : forall st0, ignoreFiles st0 = ignoreFiles st ->
            onChange filename st0 = (Ok tt, with_pending (pending st0 ++ [filename]) st0)).
  { intros st0 E. unfold onChange, includes. rewrite E.
    now rewrite bool_decide_eq_false_2. }
  split; [exact (Hc st eq_refl)|].
  split; [intros b; exact (Hc (with_ready b st) eq_refl)|]. split.
  - intros Hidle. unfold deliver, bind. cbn [handle]. rewrite (Hc st eq_refl).
    unfold settle. cbn [pending with_pending]. rewrite Hidle.
    change (syncAll this destinationDir ([] ++ [filename]))
      with (bind (syncFile this destinationDir filename) (fun _ => ret tt)).
    rewrite bind_ret_unit. f_equal. destruct st; cbn in *; now subst.
  - intros Hready. unfold onAdd. rewrite Hready.
    destruct (endsWith filename "map"); cbn [negb]; [reflexivity|].
    cbv [bind existsSync]. now destruct (bool_decide _).
Qed.

(** C6: an add event before ready for a map file, or for a file whose name
    exists in the destination, writes nothing: the handler logs
    [Watching <filename>] and changes nothing else, so the file system, and
    with it the content of the destination file, is as before; no call of
    [syncFile] is started. *)
Theorem onAdd_before_ready (filename : string) (st : state) :
  ready st = false ->
  endsWith filename ".map" = true \/ is_Some (fs st !! inDest destinationDir filename) ->
  onAdd destinationDir filename st
  = (Ok tt, with_log (log st ++ [LogDebug ("Watching " +:+ filename)]) st) /\
  fs (snd (onAdd destinationDir filename st)) = fs st /\
  pending (snd (onAdd destinationDir filename st)) = pending st /\
  (pending st = [] ->
   deliver this destinationDir (Add filename) st
   = (Ok tt, with_log (log st ++ [LogDebug ("Watching " +:+ filename)]) st)).
Proof.
  intros Hready Hcase.
  assert (Hrun : onAdd destinationDir filename st
            = (Ok tt, with_log (log st ++ [LogDebug ("Watching " +:+ filename)]) st)).
  { unfold onAdd. rewrite Hready.
    destruct (endsWith filename "map") eqn:Hmap; cbn [negb]; [reflexivity|].
    destruct Hcase as [Hdot | Hexists].
    - apply endsWith_tail in Hdot. congruence.
    - cbv [bind existsSync]. rewrite bool_decide_eq_true_2 by exact Hexists.
      reflexivity. }
  split; [exact Hrun|]. rewrite Hrun. split; [reflexivity|]. split; [reflexivity|].
  intros Hidle. unfold deliver, bind. cbn [handle]. rewrite Hrun.
  now apply settle_idle.
Qed.

(** C5: the unlink handler deletes the file in the destination and then its
    map when there is one; without a map it stops after the first deletion.
    When the first deletion fails, the error leaves the handler, and the
    delivery of the event with it, and nothing has changed. *)
Theorem onUnlink_removes (filename : string) (st : state) :
  let file := inDest destinationDir filename in
  let map := inDest destinationDir (filename +:+ ".map") in
  let removed := delete file (fs st) in
  (forall content,
     fs st !! file = Some (File content) ->
     (removed !! map = None ->
      onUnlink destinationDir filename st = (Ok tt, with_fs removed st)) /\
     (forall mapContent,
        removed !! map = Some (File mapContent) ->
        onUnlink destinationDir filename st = (Ok tt, with_fs (delete map removed) st))) /\
  (fs st !! file = None ->
   onUnlink destinationDir filename st = (Throw (ErrnoException ENOENT file), st) /\
   deliver this destinationDir (Unlink filename) st
   = (Throw (ErrnoException ENOENT file), st)) /\
  (fs st !! file = Some Dir ->
   onUnlink destinationDir filename st = (Throw (ErrnoException EISDIR file), st) /\
   deliver this destinationDir (Unlink filename) st
   = (Throw (ErrnoException EISDIR file), st)).
Proof.
  intros file map removed. split; [|split].
  - intros content Hfile. split.
    + intros Hmap. cbv [onUnlink bind unlinkSync existsSync ret]. fold file map.
      rewrite Hfile. cbn [fs with_fs]. fold removed. rewrite Hmap.
      rewrite bool_decide_eq_false_2 by (intros [? ?]; discriminate). reflexivity.
    + intros mapContent Hmap. cbv [onUnlink bind unlinkSync existsSync ret].
      fold file map. rewrite Hfile. cbn [fs with_fs]. fold removed. rewrite Hmap.
      rewrite bool_decide_eq_true_2 by eauto. cbn [fs with_fs]. fold removed.
      rewrite Hmap. reflexivity.
  - intros Hfile.
    assert (Hrun : onUnlink destinationDir filename st
              = (Throw (ErrnoException ENOENT file), st)).
    { cbv [onUnlink bind unlinkSync]. fold file. now rewrite Hfile. }
    split; [exact Hrun|]. unfold deliver, bind. cbn [handle]. now rewrite Hrun.
  - intros Hfile.
    assert (Hrun : onUnlink destinationDir filename st
              = (Throw (ErrnoException EISDIR file), st)).
    { cbv [onUnlink bind unlinkSync]. fold file. now rewrite Hfile. }
    split; [exact Hrun|]. unfold deliver, bind. cbn [handle]. now rewrite Hrun.
Qed.

(** A directory in the place of the map: it exists, [unlinkSync] refuses it,
    and the handler throws after the file is gone. *)
Lemma onUnlink_map_directory (filename content : string) (st : state) :
  fs st !! inDest destinationDir filename = Some (File content) ->
  delete (inDest destinationDir filename) (fs st)
    !! inDest destinationDir (filename +:+ ".map") = Some Dir ->
  onUnlink destinationDir filename st
  = (Throw (ErrnoException EISDIR (inDest destinationDir (filename +:+ ".map"))),
     with_fs (delete (inDest destinationDir filename) (fs st)) st).
Proof.
  intros Hfile Hmap. cbv [onUnlink bind unlinkSync existsSync ret].
  rewrite Hfile. cbn [fs with_fs]. rewrite Hmap.
  rewrite bool_decide_eq_true_2 by eauto. cbn [fs with_fs]. rewrite Hmap. reflexivity.
Qed.

End FileSyncProperties.

(** ** The routes of [runServer] *)

Lemma stripPrefix_append (prefix rest : string) :
  stripPrefix prefix (prefix +:+ rest) = Some rest.
Proof.
  induction prefix as [|c prefix IH]; [now destruct rest|].
  change (String c prefix +:+ rest) with (String c (prefix +:+ rest)).
  cbn [stripPrefix]. now rewrite Ascii.eqb_refl.
Qed.

Lemma allChars_append (f : ascii -> bool) (a b : string) :
  allChars f (a +:+ b) = allChars f a && allChars f b.
Proof.
  induction a as [|c a IH]; [reflexivity|].
  change (String c a +:+ b) with (String c (a +:+ b)).
  cbn [allChars]. now rewrite IH, andb_assoc.
Qed.

Lemma allChars_impl (f g : ascii -> bool) (s : string) :
  (forall c, f c = true -> g c = true) ->
  allChars f s = true -> allChars g s = true.
Proof.
  intros Hfg. induction s as [|c s IH]; [reflexivity|].
  cbn [allChars]. intros [Hc Hs]%andb_true_iff.
  now rewrite (Hfg _ Hc), (IH Hs).
Qed.

Lemma stripSuffix_append (suffix a : string) :
  stripSuffix suffix (a +:+ suffix) = Some a.
Proof.
  induction a as [|c a IH].
  - change (EmptyString +:+ suffix) with suffix.
    destruct suffix; cbn [stripSuffix]; now rewrite String.eqb_refl.
  - change (String c a +:+ suffix) with (String c (a +:+ suffix)).
    cbn [stripSuffix]. rewrite IH.
    destruct (String.eqb_spec (String c (a +:+ suffix)) suffix) as [E|_]; [|reflexivity].
    apply (f_equal String.length) in E. cbn [String.length] in E.
    assert (forall x y, String.length (x +:+ y) = String.length x + String.length y) as L.
    { clear. intros x y. induction x as [|c x IH]; [reflexivity|].
      change (String c x +:+ y) with (String c (x +:+ y)). cbn [String.length].
      now rewrite IH. }
    rewrite L in E. lia.
Qed.

(** The directory of the first glob of [runServer]. *)
Lemma plainPath_adapter (adapterName : string) :
  plainName adapterName = true -> plainPath ("/adapter/" +:+ adapterName) = true.
Proof.
  unfold plainName, plainPath. intros [_ H]%andb_true_iff.
  rewrite allChars_append.
  rewrite (allChars_impl plainChar _ adapterName); [reflexivity | | exact H].
  intros c ->. reflexivity.
Qed.

Lemma plainPath_adapter_slash (adapterName : string) :
  plainName adapterName = true ->
  plainPath ("/adapter/" +:+ adapterName +:+ "/") = true.
Proof.
  unfold plainName, plainPath. intros [_ H]%andb_true_iff.
  rewrite !allChars_append.
  rewrite (allChars_impl plainChar _ adapterName); [reflexivity | | exact H].
  intros c ->. reflexivity.
Qed.

Lemma parseGlob_adminPattern (adapterName : string) :
  plainName adapterName = true ->
  parseGlob (adminPattern adapterName)
  = Some {| negated := false; directory := "/adapter/" +:+ adapterName |}.
Proof.
  intros H. unfold parseGlob, globDirectory, adminPattern.
  rewrite <- append_assoc, stripSuffix_append, (plainPath_adapter _ H).
  reflexivity.
Qed.

Lemma parseGlob_not_adminPattern (adapterName : string) :
  plainName adapterName = true ->
  parseGlob ("!" +:+ adminPattern adapterName)
  = Some {| negated := true; directory := "/adapter/" +:+ adapterName |}.
Proof.
  intros H. unfold parseGlob. rewrite stripPrefix_append.
  unfold globDirectory, adminPattern.
  rewrite <- append_assoc, stripSuffix_append, (plainPath_adapter _ H).
  reflexivity.
Qed.

Lemma urlChar_lineTerminatorAt (c : ascii) (s : string) :
  urlChar c = true -> lineTerminatorAt (String c s) = false.
Proof.
  intros H. unfold lineTerminatorAt, LF, CR, LS, PS. cbn [startsWith].
  destruct (Ascii.eqb_spec "010" c) as [<-|_]; [discriminate H|].
  destruct (Ascii.eqb_spec "013" c) as [<-|_]; [discriminate H|].
  destruct (Ascii.eqb_spec "226" c) as [<-|_]; [discriminate H|].
  reflexivity.
Qed.

Lemma allChars_singleLine (s : string) :
  allChars urlChar s = true -> singleLine s = true.
Proof.
  induction s as [|c s IH]; [reflexivity|].
  cbn [allChars singleLine]. intros [Hc Hs]%andb_true_iff.
  now rewrite (urlChar_lineTerminatorAt _ _ Hc), (IH Hs).
Qed.

Lemma allChars_pathname (f : ascii -> bool) (url : string) :
  allChars f url = true -> allChars f (pathname url) = true.
Proof.
  induction url as [|c url IH]; [reflexivity|].
  cbn [allChars pathname]. intros [Hc Hs]%andb_true_iff.
  destruct (Ascii.eqb c "?" || Ascii.eqb c "#"); [reflexivity|].
  cbn [allChars]. now rewrite Hc, (IH Hs).
Qed.

(** The path name of a request target in origin form is not empty and has
    no line terminator. *)
Lemma originForm_pathname (url : string) :
  originForm url = true ->
  String.eqb (pathname url) EmptyString = false /\ singleLine (pathname url) = true.
Proof.
  unfold originForm. intros [[Hs _]%andb_true_iff Hc]%andb_true_iff. split.
  - destruct url as [|c url]; [discriminate Hs|].
    cbn [startsWith] in Hs. apply andb_true_iff in Hs as [Hs _].
    apply Ascii.eqb_eq in Hs. subst c. reflexivity.
  - apply allChars_singleLine, allChars_pathname, Hc.
Qed.

(** The path name of a target that starts with a plain path. *)
Lemma pathname_append (prefix rest : string) :
  allChars (fun c => plainChar c || Ascii.eqb c "/") prefix = true ->
  pathname (prefix +:+ rest) = prefix +:+ pathname rest.
Proof.
  induction prefix as [|c prefix IH]; [reflexivity|].
  change (String c prefix +:+ rest) with (String c (prefix +:+ rest)).
  change (String c prefix +:+ pathname rest) with (String c (prefix +:+ pathname rest)).
  cbn [allChars pathname]. intros [Hc Hs]%andb_true_iff. rewrite (IH Hs).
  destruct (Ascii.eqb_spec c "?") as [->|_]; [discriminate Hc|].
  destruct (Ascii.eqb_spec c "#") as [->|_]; [discriminate Hc|].
  reflexivity.
Qed.

Lemma startsWith_refl (s : string) : startsWith s s = true.
Proof. induction s as [|c s IH]; cbn [startsWith]; [|rewrite Ascii.eqb_refl]; auto. Qed.

Lemma stripPrefix_slash_startsWith (dir input : string) :
  startsWith input dir = false -> stripPrefix (dir +:+ "/") input = None.
Proof.
  revert input. induction dir as [|c d IH]; intros [|x s]; cbn; try discriminate;
    try reflexivity.
  change (String c d +:+ "/") with (String c (d +:+ "/")). cbn [stripPrefix].
  destruct (Ascii.eqb c x); cbn; [apply IH | reflexivity].
Qed.

(** What matches [<dir>/**] starts with [<dir>]. *)
Lemma globstarMatch_startsWith (dir input : string) :
  globstarMatch dir input = true -> startsWith input dir = true.
Proof.
  unfold globstarMatch. intros [H | H]%orb_true_iff.
  - apply String.eqb_eq in H. subst input. apply startsWith_refl.
  - destruct (startsWith input dir) eqn:E; [reflexivity|].
    rewrite (stripPrefix_slash_startsWith _ _ E) in H. discriminate H.
Qed.

Lemma startsWith_pathname (url prefix : string) :
  startsWith (pathname url) prefix = true -> startsWith url prefix = true.
Proof.
  revert url. induction prefix as [|c p IH]; intros [|x url]; cbn [pathname startsWith];
    try reflexivity; try discriminate.
  destruct (Ascii.eqb x "?" || Ascii.eqb x "#"); [discriminate|].
  cbn [startsWith]. intros [-> H]%andb_true_iff. now rewrite (IH _ H).
Qed.

Section RouterProperties.
Variable contextMatch_other : list string -> string -> bool.
Variable replace_other : string -> string -> string -> option string.
Variable adapterName : string.
Hypothesis plain : plainName adapterName = true.

(** The first context takes what matches one of its two globs. *)
Lemma contextMatch_browserSyncProxy (url : string) :
  originForm url = true ->
  contextMatch contextMatch_other (context (browserSyncProxy adapterName)) url
  = globstarMatch ("/adapter/" +:+ adapterName) (pathname url)
    || globstarMatch "/browser-sync" (pathname url).
Proof.
  intros Hurl. destruct (originForm_pathname _ Hurl) as [Hne _].
  unfold contextMatch. cbn [context browserSyncProxy parseGlobs].
  rewrite (parseGlob_adminPattern _ plain), Hurl.
  change (parseGlob "/browser-sync/**")
    with (Some {| negated := false; directory := "/browser-sync" |}).
  unfold micromatch, isMatch. cbn [micromatchLoop negated directory isMatch length Nat.eqb].
  unfold isMatch. cbn [negated directory]. rewrite Hne. cbn [negb andb].
  destruct (globstarMatch ("/adapter/" +:+ adapterName) (pathname url)),
    (globstarMatch "/browser-sync" (pathname url)); reflexivity.
Qed.

(** The second context takes the complement. *)
Lemma contextMatch_adminProxy (url : string) :
  originForm url = true ->
  contextMatch contextMatch_other (context (adminProxy adapterName)) url
  = negb (globstarMatch ("/adapter/" +:+ adapterName) (pathname url)
          || globstarMatch "/browser-sync" (pathname url)).
Proof.
  intros Hurl. destruct (originForm_pathname _ Hurl) as [Hne Hsl].
  unfold contextMatch. cbn [context adminProxy parseGlobs].
  rewrite (parseGlob_not_adminPattern _ plain), Hurl.
  change (parseGlob "!/browser-sync/**")
    with (Some {| negated := true; directory := "/browser-sync" |}).
  unfold micromatch. cbn [micromatchLoop negated directory length Nat.eqb].
  unfold isMatch. cbn [negated directory]. rewrite Hne, Hsl. cbn [negb andb].
  rewrite !andb_true_r.
  destruct (globstarMatch ("/adapter/" +:+ adapterName) (pathname url)),
    (globstarMatch "/browser-sync" (pathname url)); reflexivity.
Qed.

(** The rule of the first proxy replaces [/adapter/<name>/] at the start of
    the URL. *)
Lemma rewritePath_browserSyncProxy (url : string) :
  forwardedPath replace_other (browserSyncProxy adapterName) url
  = match stripPrefix ("/adapter/" +:+ adapterName +:+ "/") url with
    | Some rest => "/" +:+ rest
    | None => url
    end.
Proof.
  unfold forwardedPath. cbn [pathRewrite browserSyncProxy rewritePath].
  unfold rewriteRule, literalPrefix.
  change ("^/adapter/" +:+ adapterName +:+ "/")
    with ("^" +:+ "/adapter/" +:+ adapterName +:+ "/").
  rewrite stripPrefix_append, (plainPath_adapter_slash _ plain).
  change (contains "/" "$") with false. cbn match.
  now destruct (stripPrefix _ url).
Qed.



End RouterProperties.

(** * Examples on the small platform *)



Example route_root :
  forall other replace,
  route other replace (app "test") "/" = Some (Localhost HIDDEN_ADMIN_PORT, "/").
Proof. reflexivity. Qed.

(** The query is not part of the path name and is forwarded. *)
Example route_query :
  forall other replace,
  route other replace (app "test") "/adapter/test/tab.html?instance=0"
  = Some (Localhost HIDDEN_BROWSER_SYNC_PORT, "/tab.html?instance=0").
Proof. reflexivity. Qed.

Example route_upgrade_socket_io :
  forall other replace,
  routeUpgrade other replace (app "test") "/socket.io/"
  = [(Localhost HIDDEN_ADMIN_PORT, "/socket.io/")].
Proof. reflexivity. Qed.

Example route_upgrade_assets :
  forall other replace,
  routeUpgrade other replace (app "test") "/browser-sync/socket.io/" = [].
Proof. reflexivity. Qed.

(** C1 as stated fails: [main.js] is added before ready and is not in the
    destination, so it is excluded; the change event that follows is not
    passed to [syncFile], and the destination still has no [main.js]. *)
Lemma change_of_excluded_file_not_synced :
  let st := snd (deliverAll (P := posix) devServer adapterRunDir
                   [Add "main.js"; Ready] initial) in
  let st' := snd (deliver (P := posix) devServer adapterRunDir (Change "main.js") st) in
  ignoreFiles st = ["main.js"] /\
  ready st = true /\
  pending (snd (onChange (P := posix) "main.js" st)) = [] /\
  st' = st /\
  ignoreFiles st' = ["main.js"] /\
  fs st' !! inDest (P := posix) adapterRunDir "main.js" = None.
Proof. vm_compute. repeat split; reflexivity. Qed.

Lemma excluded_file_stays_excluded_witness :
  let st := snd (onAdd (P := posix) adapterRunDir "main.js" initial) in
  let st' := snd (deliverAll (P := posix) devServer adapterRunDir
                    [Ready; Change "main.js"; Change "build/lib.js.map"] st) in
  "main.js" ∈ ignoreFiles st /\
  "main.js" ∈ ignoreFiles st' /\
  onChange (P := posix) "main.js" st' = (Ok tt, st').
Proof.
  intros st st'.
  assert (Hin : "main.js" ∈ ignoreFiles st) by (vm_compute; apply list_elem_of_here).
  split; [exact Hin|].
  destruct (@excluded_file_stays_excluded posix devServer adapterRunDir "main.js"
              [Ready; Change "main.js"; Change "build/lib.js.map"] st Hin)
    as (H1 & H2 & _).
  split; [exact H1 | exact H2].
Defined.

Lemma onChange_ignores_ready_witness :
  ("main.js" ∉ ignoreFiles initial) /\
  ready initial = false /\
  onChange (P := posix) "main.js" initial = (Ok tt, with_pending ["main.js"] initial).
Proof.
  assert (Hnin : "main.js" ∉ ignoreFiles initial) by (cbn; apply not_elem_of_nil).
  split; [exact Hnin | split; [reflexivity|]].
  exact (proj1 (@onChange_ignores_ready posix devServer adapterRunDir "main.js"
                  initial Hnin)).
Defined.

Lemma onAdd_before_ready_witness :
  ready installed = false /\
  is_Some (fs installed !! inDest (P := posix) adapterRunDir "main.js") /\
  fs (snd (onAdd (P := posix) adapterRunDir "main.js" installed)) = fs installed /\
  fs (snd (onAdd (P := posix) adapterRunDir "main.js" installed))
    !! "/run/iobroker.test/main.js" = Some (File "old").
Proof.
  assert (Hex : is_Some (fs installed !! inDest (P := posix) adapterRunDir "main.js"))
    by (vm_compute; eauto).
  split; [reflexivity | split; [exact Hex|]].
  destruct (@onAdd_before_ready posix devServer adapterRunDir "main.js" installed
              eq_refl (or_intror Hex)) as (_ & Hfs & _).
  split; [exact Hfs|]. rewrite Hfs. vm_compute. reflexivity.
Defined.

Lemma patchSourcemap_idempotent_witness :
  let src := "/work/build/lib.js.map" in
  (patchDocument (P := posix) src (patchDocument (P := posix) src document_v3)
   = patchDocument (P := posix) src document_v3) /\
  fs (snd (patchSourcemap (P := posix) src src
             (snd (patchSourcemap (P := posix) src src initial))))
  = fs (snd (patchSourcemap (P := posix) src src initial)).
Proof.
  intros src.
  apply (@patchSourcemap_idempotent posix src src
           (posix_stringify document_v3) document_v3 (Some (JNumber 3)) initial).
  - vm_compute. reflexivity.
  - vm_compute. reflexivity.
  - reflexivity.
  - reflexivity.
  - intros _. vm_compute. reflexivity.
Defined.

(** C2 as stated fails: on [build/old.js.map], whose version is 2,
    [patchSourcemap] does not throw to its caller. *)
Lemma patchSourcemap_does_not_propagate :
  let src := "/work/build/old.js.map" in
  let dest := "/run/iobroker.test/build/old.js.map" in
  readJson (P := posix) src initial = (Ok document_v2, initial) /\
  getProperty (P := posix) document_v2 "version" = Ok (Some (JNumber 2)) /\
  isThree (P := posix) (Some (JNumber 2)) = false /\
  ~ exists e, fst (patchSourcemap (P := posix) src dest initial) = Throw e.
Proof.
  intros src dest. repeat split; try (vm_compute; reflexivity).
  intros [e He]. rewrite patchSourcemap_returns in He. discriminate He.
Qed.

Lemma patchSourcemap_unsupported_version_witness :
  let src := "/work/build/old.js.map" in
  let dest := "/run/iobroker.test/build/old.js.map" in
  patchSourcemap (P := posix) src dest initial
  = (Ok tt,
     with_log [LogWarn ("Couldn't patch " +:+ dest +:+ ": ")
                       (Some (@UnsupportedVersion posix (Some (JNumber 2))))] initial)
  /\ fs (snd (patchSourcemap (P := posix) src dest initial)) = fs initial.
Proof.
  intros src dest.
  apply (@patchSourcemap_unsupported_version posix src dest
           (posix_stringify document_v2) document_v2 (Some (JNumber 2)) initial).
  - vm_compute. reflexivity.
  - vm_compute. reflexivity.
  - reflexivity.
  - reflexivity.
Defined.

(** [addSourcemap] on a file that is not there, and on a text that the lexer
    rejects: a warning, a normal return, an untouched file system. *)
Example addSourcemap_missing_source :
  addSourcemap (P := posix) "/work/missing.js" "/run/iobroker.test/missing.js" true initial
  = (Ok tt,
     with_log [LogWarn "Couldn't reverse map for /work/missing.js: "
                       (Some (@ErrnoException posix ENOENT "/work/missing.js"))] initial).
Proof. vm_compute. reflexivity. Qed.

Example addSourcemap_syntax_error :
  let st := with_fs (<["/work/bad.js" := File "let @"]> tree) initial in
  addSourcemap (P := posix) "/work/bad.js" "/run/iobroker.test/bad.js" true st
  = (Ok tt,
     with_log [LogWarn "Couldn't reverse map for /work/bad.js: "
                       (Some (@SyntaxError posix "Unexpected character '@'"))] st).
Proof. vm_compute. reflexivity. Qed.

(** After ready, a change of [main.js] puts the file with its reference line
    and an identity map into the destination, and a change of
    [build/lib.js.map] puts the map there with the directory of the source
    map as its source root. *)
Example changes_after_ready :
  let st := snd (deliverAll (P := posix) devServer adapterRunDir
                   [Ready; Change "main.js"; Change "build/lib.js.map"] initial) in
  fs st !! "/run/iobroker.test/main.js"
  = Some (File ("let x" +:+ CRLF +:+ "x" +:+ CRLF +:+ "//# sourceMappingURL=main.js.map")) /\
  fs st !! "/run/iobroker.test/main.js.map"
  = Some (File (posix_stringify
                  (posix_toJSON
                     {| gen_file := "/work/main.js";
                        gen_mappings :=
                          map (fun p => {| original := p; generated := p;
                                           source := "/work/main.js" |})
                              [{| line := 1; column := 0 |};
                               {| line := 1; column := 4 |};
                               {| line := 2; column := 0 |}] |}))) /\
  fs st !! "/run/iobroker.test/build/lib.js.map"
  = Some (File (posix_stringify
                  (JObject [("version", JNumber 3);
                            ("sources", JArray [JString "main.ts"]);
                            ("sourceRoot", JString "/work/build")]))).
Proof. vm_compute. repeat split; reflexivity. Qed.

(** An unlink of [main.js] in a destination without [main.js.map]. *)
Example unlink_without_map :
  onUnlink (P := posix) adapterRunDir "main.js" installed = (Ok tt, initial).
Proof. vm_compute. reflexivity. Qed.

(** An unlink of a file that the destination does not have. *)
Example unlink_missing :
  onUnlink (P := posix) adapterRunDir "main.js" initial
  = (Throw (ErrnoException ENOENT "/run/iobroker.test/main.js"), initial).
Proof. vm_compute. reflexivity. Qed.

(** * Further properties *)

(** ** File patterns *)

(** The patterns of [getFilePatterns] are one [./**/*.<e>] for every
    extension, the three fixed exclusions, and the exclusion of [admin] when
    asked for, and nothing else. *)
Lemma getFilePatterns_elem (extensions : list string) (excludeAdmin : bool)
    (pattern : string) :
  pattern ∈ getFilePatterns (inr extensions) excludeAdmin <->
  (exists e, e ∈ extensions /\ pattern = "./**/*." +:+ e) \/
  pattern = "!./.*/**" \/ pattern = "!./node_modules/**" \/ pattern = "!./test/**" \/
  (excludeAdmin = true /\ pattern = "!./admin/**").
Proof.
  unfold getFilePatterns.
  destruct excludeAdmin; rewrite !elem_of_app, list_elem_of_fmap, !list_elem_of_singleton.
  - split.
    + intros [[[[(e & -> & He) | ->] | ->] | ->] | ->].
      * left. now exists e.
      * right. now left.
      * right. right. now left.
      * right. right. right. now left.
      * right. right. right. right. now split.
    + intros [(e & He & ->) | [-> | [-> | [-> | [_ ->]]]]].
      * left. left. left. left. now exists e.
      * left. left. left. now right.
      * left. left. now right.
      * left. now right.
      * now right.
  - split.
    + intros [[[(e & -> & He) | ->] | ->] | ->].
      * left. now exists e.
      * right. now left.
      * right. right. now left.
      * right. right. right. now left.
    + intros [(e & He & ->) | [-> | [-> | [-> | [[=] _]]]]].
      * left. left. left. now exists e.
      * left. left. now right.
      * left. now right.
      * now right.
Qed.

(** X1: [admin] is excluded exactly when [excludeAdmin] is set, whatever
    the extensions are; hidden directories, [node_modules] and [test] are
    excluded always. *)
Theorem getFilePatterns_excludes (extensions : string + list string)
    (excludeAdmin : bool) :
  ("!./admin/**" ∈ getFilePatterns extensions excludeAdmin <-> excludeAdmin = true) /\
  "!./.*/**" ∈ getFilePatterns extensions excludeAdmin /\
  "!./node_modules/**" ∈ getFilePatterns extensions excludeAdmin /\
  "!./test/**" ∈ getFilePatterns extensions excludeAdmin.
Proof.
  assert (Hinc : forall exts : list string,
            "!./admin/**" ∉ map (fun e => "./**/*." +:+ e) exts).
  { intros exts Hin. apply list_elem_of_fmap in Hin as (e & He & _).
    discriminate He. }
  unfold getFilePatterns.
  set (exts := match extensions with inl e => [e] | inr l => l end).
  specialize (Hinc exts).
  destruct excludeAdmin; rewrite !elem_of_app, !list_elem_of_singleton.
  - split; [split; [reflexivity | intros _; now right]|].
    split; [left; left; left; now right|].
    split; [left; left; now right | left; now right].
  - split; [split; [|discriminate]|].
    + intros [[[H | H] | H] | H]; [contradiction | discriminate H..].
    + split; [left; left; now right|].
      split; [left; now right | now right].
Qed.

(** ** The command line *)

Section CommandLineProperties.
Variable Num : Type.
Implicit Types args : list (string + Num).

Lemma includesArg_app args (a : string + Num) (s : string) :
  includesArg (args ++ [a])%list s
  = includesArg args s || match a with inl x => String.eqb x s | inr _ => false end.
Proof.
  unfold includesArg. rewrite existsb_app. cbn. now rewrite orb_false_r.
Qed.

Lemma includesArg_append args (more : list (string + Num)) (s : string) :
  includesArg (args ++ more)%list s = includesArg args s || includesArg more s.
Proof. apply existsb_app. Qed.

(** The short names in closed form. *)
Lemma expandShortNames_eq args :
  expandShortNames args
  = (args ++ (if includesArg args "r" then [inl "run"] else [])
          ++ (if includesArg args "w" then [inl "watch"] else [])
          ++ (if includesArg args "d" then [inl "debug"] else []))%list.
Proof.
  unfold expandShortNames, runCommands. cbn [fold_left charAt0].
  destruct (includesArg args "r") eqn:Hr.
  - rewrite !includesArg_app. cbn [String.eqb Ascii.eqb Bool.eqb andb].
    rewrite !orb_false_r.
    destruct (includesArg args "w") eqn:Hw.
    + rewrite !includesArg_app. cbn [String.eqb Ascii.eqb Bool.eqb andb].
      rewrite !orb_false_r.
      destruct (includesArg args "d"); cbn [app]; now rewrite <- ?app_assoc.
    + rewrite !includesArg_app. cbn [String.eqb Ascii.eqb Bool.eqb andb].
      rewrite !orb_false_r.
      destruct (includesArg args "d"); cbn [app]; now rewrite <- ?app_assoc, ?app_nil_r.
  - destruct (includesArg args "w") eqn:Hw.
    + rewrite !includesArg_app. cbn [String.eqb Ascii.eqb Bool.eqb andb].
      rewrite !orb_false_r.
      destruct (includesArg args "d"); cbn [app]; now rewrite <- ?app_assoc.
    + destruct (includesArg args "d"); cbn [app]; now rewrite ?app_nil_r.
Qed.

(** Which run commands the expanded arguments include. *)
Lemma expandShortNames_includes args :
  includesArg (expandShortNames args) "run" = asksFor args "run" /\
  includesArg (expandShortNames args) "watch" = asksFor args "watch" /\
  includesArg (expandShortNames args) "debug" = asksFor args "debug".
Proof.
  rewrite expandShortNames_eq, !includesArg_append. unfold asksFor. cbn [charAt0].
  destruct (includesArg args "r"), (includesArg args "w"), (includesArg args "d");
    cbn; rewrite ?orb_false_r, ?orb_true_r; auto.
Qed.

(** [combined] in terms of the three inclusions. *)
Lemma combined_none args :
  combined args = None <->
  (forall c1 c2, c1 ∈ runCommands -> c2 ∈ runCommands ->
     includesArg args c1 = true -> includesArg args c2 = true -> c1 = c2).
Proof.
  unfold combined, runCommands. cbn [firstSome String.eqb Ascii.eqb Bool.eqb andb negb].
  destruct (includesArg args "run") eqn:R, (includesArg args "watch") eqn:W,
    (includesArg args "debug") eqn:D; cbn; (split; [intros Hnone | intros Hall]);
    try discriminate; try reflexivity;
    try (intros c1 c2 H1 H2 I1 I2;
         repeat match goal with
         | H : _ ∈ _ :: _ |- _ => apply elem_of_cons in H as [-> | H]
         | H : _ ∈ [] |- _ => apply elem_of_nil in H; contradiction
         end; congruence).
  all: first
    [ specialize (Hall "run" "watch"); discriminate Hall;
        [apply elem_of_cons; now left
        | apply elem_of_cons; right; apply elem_of_cons; now left | assumption..]
    | specialize (Hall "run" "debug"); discriminate Hall;
        [apply elem_of_cons; now left
        | do 2 (apply elem_of_cons; right); apply elem_of_cons; now left | assumption..]
    | specialize (Hall "watch" "debug"); discriminate Hall;
        [apply elem_of_cons; right; apply elem_of_cons; now left
        | do 2 (apply elem_of_cons; right); apply elem_of_cons; now left | assumption..] ].
Qed.

Lemma includesArg_nil (s : string) : includesArg (@nil (string + Num)) s = false.
Proof. reflexivity. Qed.

Lemma elem_of_runCommands (c : string) :
  c ∈ runCommands <-> c = "run" \/ c = "watch" \/ c = "debug".
Proof.
  unfold runCommands. rewrite !elem_of_cons, elem_of_nil. tauto.
Qed.

Lemma expandShortNames_asksFor args (c : string) :
  c ∈ runCommands -> includesArg (expandShortNames args) c = asksFor args c.
Proof.
  destruct (expandShortNames_includes args) as (Hr & Hw & Hd).
  intros [-> | [-> | ->]]%elem_of_runCommands; assumption.
Qed.

Lemma check_cons (a : string + Num) args :
  check (a :: args)
  = match combined (expandShortNames (a :: args)) with
    | Some (cmd, other) =>
        inl ("Can't combine " +:+ cmd +:+ " and " +:+ other
             +:+ ". You may only use one at a time.")
    | None => inr (expandShortNames (a :: args))
    end.
Proof. reflexivity. Qed.

Lemma asksFor_nil (c : string) : asksFor (@nil (string + Num)) c = false.
Proof. unfold asksFor. now destruct (charAt0 c). Qed.

(** X2: [check] accepts the arguments exactly when at most one of the run
    commands [run], [watch] and [debug] is asked for, by its name or by its
    first letter; otherwise it throws. *)
Theorem check_accepts_iff args :
  (exists args', check args = inr args') <->
  (forall c1 c2, c1 ∈ runCommands -> c2 ∈ runCommands ->
     asksFor args c1 = true -> asksFor args c2 = true -> c1 = c2).
Proof.
  destruct args as [|a args].
  - split; [|intros _; now exists [inl "run"]].
    intros _ c1 c2 _ _ H. now rewrite asksFor_nil in H.
  - rewrite check_cons.
    destruct (combined (expandShortNames (a :: args))) as [[cmd other]|] eqn:Hc.
    + split; [intros [? [=]]|]. intros Hall.
      assert (Hnone : combined (expandShortNames (a :: args)) = None); [|congruence].
      apply combined_none. intros c1 c2 H1 H2.
      rewrite !expandShortNames_asksFor by assumption. now apply Hall.
    + split; [|intros _; eauto]. intros _ c1 c2 H1 H2 A1 A2.
      apply (proj1 (combined_none _) Hc); try assumption;
        now rewrite expandShortNames_asksFor.
Qed.

(** X3: [check] only appends to [argv._]: what it returns is the given
    arguments followed by names of run commands. *)
Theorem check_extends args (args' : list (string + Num)) :
  check args = inr args' ->
  exists added : list string,
    args' = (args ++ map inl added)%list /\ Forall (fun c => c ∈ runCommands) added.
Proof.
  destruct args as [|a args].
  - intros [= <-]. exists ["run"]. split; [reflexivity|].
    constructor; [|constructor]. apply elem_of_runCommands. now left.
  - rewrite check_cons.
    destruct (combined (expandShortNames (a :: args))) as [[cmd other]|]; [discriminate|].
    intros [= <-]. rewrite expandShortNames_eq.
    exists ((if includesArg (a :: args) "r" then ["run"] else [])
            ++ (if includesArg (a :: args) "w" then ["watch"] else [])
            ++ (if includesArg (a :: args) "d" then ["debug"] else []))%list.
    split.
    + rewrite !map_app.
      now destruct (includesArg (a :: args) "r"), (includesArg (a :: args) "w"),
        (includesArg (a :: args) "d").
    + rewrite !Forall_app.
      destruct (includesArg (a :: args) "r"), (includesArg (a :: args) "w"),
        (includesArg (a :: args) "d");
        repeat split; repeat constructor; apply elem_of_runCommands; auto.
Qed.

(** X4: after a [check] that passed, [runCommand] is the run command that
    was asked for by name or by first letter; it is [run] when no argument
    was given, and there is none when arguments were given that ask for no
    run command. *)
Theorem runCommand_after_check args (args' : list (string + Num)) (c : string) :
  check args = inr args' ->
  runCommand args' = Some c <->
  c ∈ runCommands /\ (asksFor args c = true \/ (args = [] /\ c = "run")).
Proof.
  destruct args as [|a args].
  - intros Hc. assert (args' = [inl "run"]) as -> by (cbv in Hc; congruence).
    assert (E : runCommand (Num := Num) [inl "run"] = Some "run") by reflexivity.
    rewrite E. split.
    + intros [= <-]. split; [apply elem_of_runCommands|]; auto.
    + intros [_ [H | [_ ->]]]; [|reflexivity]. now rewrite asksFor_nil in H.
  - rewrite check_cons.
    destruct (combined (expandShortNames (a :: args))) as [[cmd other]|] eqn:Hc;
      [discriminate|].
    intros [= <-]. pose proof (proj1 (combined_none _) Hc) as Hone.
    destruct (expandShortNames_includes (a :: args)) as (Hr & Hw & Hd).
    unfold runCommand, runCommands. cbn [find]. rewrite Hr, Hw, Hd.
    assert (Hrun : "run" ∈ runCommands) by (apply elem_of_runCommands; auto).
    assert (Hwatch : "watch" ∈ runCommands) by (apply elem_of_runCommands; auto).
    assert (Hdebug : "debug" ∈ runCommands) by (apply elem_of_runCommands; auto).
    rewrite elem_of_runCommands.
    destruct (asksFor (a :: args) "run") eqn:R.
    { split; [intros [= <-]; auto|]. intros [Hin [A | [[=] _]]]. f_equal.
      destruct Hin as [-> | [-> | ->]]; [reflexivity|..].
      - apply (Hone "run" "watch"); auto; congruence.
      - apply (Hone "run" "debug"); auto; congruence. }
    destruct (asksFor (a :: args) "watch") eqn:W.
    { split; [intros [= <-]; auto|]. intros [Hin [A | [[=] _]]]. f_equal.
      destruct Hin as [-> | [-> | ->]]; [congruence|reflexivity|].
      apply (Hone "watch" "debug"); auto; congruence. }
    destruct (asksFor (a :: args) "debug") eqn:D.
    { split; [intros [= <-]; auto|]. intros [Hin [A | [[=] _]]]. f_equal.
      destruct Hin as [-> | [-> | ->]]; congruence. }
    split; [discriminate|]. intros [Hin [A | [[=] _]]].
    destruct Hin as [-> | [-> | ->]]; congruence.
Qed.

End CommandLineProperties.

Lemma check_extends_witness :
  check (Num := nat) [inl "d"; inr 0] = inr [inl "d"; inr 0; inl "debug"] /\
  exists added : list string,
    [inl "d"; inr 0; inl "debug"] = ([inl "d"; inr 0] ++ map inl added)%list /\
    Forall (fun c => c ∈ runCommands) added.
Proof.
  split; [reflexivity|].
  exact (check_extends nat [inl "d"; inr 0] [inl "d"; inr 0; inl "debug"] eq_refl).
Defined.

Lemma runCommand_after_check_witness :
  check (Num := nat) [inl "d"; inr 0] = inr [inl "d"; inr 0; inl "debug"] /\
  (runCommand (Num := nat) [inl "d"; inr 0; inl "debug"] = Some "debug" <->
   "debug" ∈ runCommands /\
   (asksFor (Num := nat) [inl "d"; inr 0] "debug" = true \/
    ([inl "d"; inr 0] = @nil (string + nat) /\ "debug" = "run"))).
Proof.
  split; [reflexivity|].
  exact (runCommand_after_check nat [inl "d"; inr 0] [inl "d"; inr 0; inl "debug"]
           "debug" eq_refl).
Defined.

(** Asking for two run commands is refused, whichever way they are named. *)
Example check_refuses_two :
  check (Num := nat) [inl "r"; inl "debug"]
  = inl "Can't combine run and debug. You may only use one at a time.".
Proof. reflexivity. Qed.

(** ** The adapter name *)

Lemma stripPrefix_Some (prefix s rest : string) :
  stripPrefix prefix s = Some rest -> s = prefix +:+ rest.
Proof.
  revert s. induction prefix as [|c prefix IH]; intros [|x s]; cbn [stripPrefix].
  - now intros [= <-].
  - now intros [= <-].
  - discriminate.
  - destruct (Ascii.eqb c x) eqn:E; [|discriminate].
    apply Ascii.eqb_eq in E. subst x. intros H.
    change (String c prefix +:+ rest) with (String c (prefix +:+ rest)).
    now rewrite (IH _ H).
Qed.

(** When [.*] reaches the end of the text it has taken all of it. *)
Lemma dotStar_all (s run : string) : dotStar s = (run, "") -> run = s.
Proof.
  revert run. induction s as [|y s IH]; intros run; cbn [dotStar].
  - now intros [= <-].
  - destruct (lineTerminatorAt (String y s)); [discriminate|].
    destruct (dotStar s) as [a b]. intros [= <- ->]. now rewrite (IH a eq_refl).
Qed.

Lemma matchPackageName_Some (pkgName name : string) :
  matchPackageName pkgName = Some name <->
  pkgName = "iobroker." +:+ name /\ name <> "" /\ dotStar name = (name, "").
Proof.
  unfold matchPackageName. split.
  - destruct (stripPrefix "iobroker." pkgName) as [rest|] eqn:Hp; [|discriminate].
    apply stripPrefix_Some in Hp.
    destruct (dotStar rest) as [[|c run] [|x after]] eqn:Hd; try discriminate.
    intros [= <-]. pose proof (dotStar_all _ _ Hd) as Hall.
    split; [exact Hp|]. split; [now rewrite <- Hall | now rewrite Hd, Hall].
  - intros (-> & Hne & Hd). rewrite stripPrefix_append, Hd.
    destruct name; [contradiction | reflexivity].
Qed.

Section AdapterNameProperties.
Context {P : Platform}.
Variable this : DevServer.

(** X5: the name that [findAdapterName] returns is what follows
    [iobroker.] in the [name] of [package.json]: it is not empty, has no line
    terminator, and the call changes nothing but the log, where it leaves
    one debug line. *)
Theorem findAdapterName_sound (name : string) (st st' : state) :
  findAdapterName this st = (inr name, st') ->
  exists text pkg,
    fs st !! path_join (rootDir this) "package.json" = Some (File text) /\
    JSON_parse text = inr pkg /\
    getProperty pkg "name" = Ok (Some (JString ("iobroker." +:+ name))) /\
    name <> "" /\ dotStar name = (name, "") /\
    st' = with_log (log st ++ [LogDebug ("Found adapter name: " +:+ quote
                                         +:+ name +:+ quote)]) st.
Proof.
  unfold findAdapterName, readPackageJson. run.
  destruct (fs st !! path_join (rootDir this) "package.json") as [[text|]|] eqn:Hf;
    try discriminate.
  destruct (JSON_parse text) as [msg|pkg] eqn:Hp; [discriminate|].
  destruct (getProperty pkg "name") as [[[ | | |pkgName| | ]|]|e] eqn:Hn; try discriminate.
  destruct (matchPackageName pkgName) as [[|c n]|] eqn:Hm; try discriminate.
  intros [= <- <-]. apply matchPackageName_Some in Hm as (-> & Hne & Hd).
  exists text, pkg. repeat split; auto.
Qed.

(** X6: every adapter name that is not empty and has no line terminator is
    found again: with [iobroker.<name>] as the package name,
    [findAdapterName] returns [<name>]. *)
Theorem findAdapterName_complete (text name : string) (pkg : json number) (st : state) :
  fs st !! path_join (rootDir this) "package.json" = Some (File text) ->
  JSON_parse text = inr pkg ->
  getProperty pkg "name" = Ok (Some (JString ("iobroker." +:+ name))) ->
  name <> "" ->
  dotStar name = (name, "") ->
  findAdapterName this st
  = (inr name,
     with_log (log st ++ [LogDebug ("Found adapter name: " +:+ quote
                                    +:+ name +:+ quote)]) st).
Proof.
  intros Hf Hp Hn Hne Hd. unfold findAdapterName, readPackageJson. run.
  rewrite Hf, Hp, Hn.
  rewrite (proj2 (matchPackageName_Some _ name) (conj eq_refl (conj Hne Hd))).
  destruct name; [contradiction | reflexivity].
Qed.

(** X7: a package name that does not start with [iobroker.], or that is
    [iobroker.] alone, is refused with the invalid-package-name error, and
    nothing is logged. *)
Theorem findAdapterName_invalid (text pkgName : string) (pkg : json number) (st : state) :
  fs st !! path_join (rootDir this) "package.json" = Some (File text) ->
  JSON_parse text = inr pkg ->
  getProperty pkg "name" = Ok (Some (JString pkgName)) ->
  stripPrefix "iobroker." pkgName = None \/ pkgName = "iobroker." ->
  findAdapterName this st = (inl (InvalidPackageName pkgName), st).
Proof.
  intros Hf Hp Hn Hbad. unfold findAdapterName, readPackageJson. run.
  rewrite Hf, Hp, Hn.
  assert (Hm : matchPackageName pkgName = None).
  { unfold matchPackageName. destruct Hbad as [-> | ->]; reflexivity. }
  now rewrite Hm.
Qed.

End AdapterNameProperties.

Lemma findAdapterName_sound_witness :
  findAdapterName (P := posix_package) devServer project
  = (inr "test", with_log [LogDebug ("Found adapter name: " +:+ quote +:+ "test" +:+ quote)]
                   project) /\
  exists text pkg,
    fs project !! "/work/package.json" = Some (File text) /\
    JSON_parse (Platform := posix_package) text = inr pkg /\
    getProperty (P := posix_package) pkg "name" = Ok (Some (JString "iobroker.test")).
Proof.
  assert (Hrun : findAdapterName (P := posix_package) devServer project
    = (inr "test",
       with_log [LogDebug ("Found adapter name: " +:+ quote +:+ "test" +:+ quote)] project))
    by (vm_compute; reflexivity).
  split; [exact Hrun|].
  destruct (@findAdapterName_sound posix_package devServer "test" project _ Hrun)
    as (text & pkg & Hf & Hp & Hn & _).
  exists text, pkg. split; [exact Hf | split; [exact Hp | exact Hn]].
Defined.

Lemma findAdapterName_complete_witness :
  findAdapterName (P := posix_package) devServer project
  = (inr "test", with_log [LogDebug ("Found adapter name: " +:+ quote +:+ "test" +:+ quote)]
                   project).
Proof.
  apply (@findAdapterName_complete posix_package devServer
           (posix_stringify package_document) "test" package_document project).
  - vm_compute. reflexivity.
  - vm_compute. reflexivity.
  - reflexivity.
  - discriminate.
  - reflexivity.
Defined.

Lemma findAdapterName_invalid_witness :
  let st := with_fs (<["/work/package.json" :=
                         File (posix_stringify (JObject [("name", JString "test")]))]> tree)
              project in
  findAdapterName (P := posix_package) devServer st
  = (inl (InvalidPackageName "test"), st).
Proof.
  intros st.
  apply (@findAdapterName_invalid posix_package devServer
           (posix_stringify (JObject [("name", JString "test")])) "test"
           (JObject [("name", JString "test")]) st).
  - vm_compute. reflexivity.
  - vm_compute. reflexivity.
  - reflexivity.
  - left. reflexivity.
Defined.

(** ** What the source-map functions write *)

Lemma replaceBackslashes_clean (s : string) :
  contains (replaceBackslashes s) (String backslash EmptyString) = false.
Proof.
  induction s as [|c s IH]; [reflexivity|].
  cbn [replaceBackslashes contains startsWith]. rewrite IH, orb_false_r.
  apply andb_false_iff. left.
  destruct (Ascii.eqb c backslash) eqn:E; [reflexivity|].
  now rewrite Ascii.eqb_sym.
Qed.

Lemma replaceBackslashes_idempotent (s : string) :
  replaceBackslashes (replaceBackslashes s) = replaceBackslashes s.
Proof.
  induction s as [|c s IH]; [reflexivity|]. cbn [replaceBackslashes]. rewrite IH.
  destruct (Ascii.eqb c backslash) eqn:E; [reflexivity | now rewrite E].
Qed.

Lemma assoc_assign_eq {A} (key : string) (v : A) (props : list (string * A)) :
  assoc key (assign key v props) = Some v.
Proof.
  induction props as [|[k x] props IH]; cbn [assign assoc].
  - now rewrite String.eqb_refl.
  - destruct (String.eqb k key) eqn:E; cbn [assoc]; now rewrite E.
Qed.

Lemma assign_keys {A} (key : string) (v : A) (props : list (string * A)) :
  map fst (assign key v props)
  = match assoc key props with
    | Some _ => map fst props
    | None => (map fst props ++ [key])%list
    end.
Proof.
  induction props as [|[k x] props IH]; cbn [assign assoc map fst app]; [reflexivity|].
  destruct (String.eqb k key) eqn:E; [reflexivity|].
  cbn [map fst]. rewrite IH. now destruct (assoc key props).
Qed.

Section SourceMapWrites.
Context {P : Platform}.

(** X8: [patchSourcemap]'s rewrite of a parsed object sets [sourceRoot] to
    the directory of [src] written with forward slashes only, keeps the value
    of every other property, and keeps the properties in their order, with
    [sourceRoot] last when it is new. *)
Theorem patchDocument_sourceRoot (src : string) (props : list (string * json number)) :
  getProperty (patchDocument src (JObject props)) "sourceRoot"
  = Ok (Some (JString (sourceRootFor src))) /\
  contains (sourceRootFor src) (String backslash EmptyString) = false /\
  (forall key, key <> "sourceRoot" ->
     getProperty (patchDocument src (JObject props)) key = getProperty (JObject props) key) /\
  exists props',
    patchDocument src (JObject props) = JObject props' /\
    map fst props'
    = match assoc "sourceRoot" props with
      | Some _ => map fst props
      | None => (map fst props ++ ["sourceRoot"])%list
      end.
Proof.
  unfold patchDocument, setProperty, getProperty. split; [|split; [|split]].
  - now rewrite assoc_assign_eq.
  - apply replaceBackslashes_clean.
  - intros key Hne. f_equal. apply assoc_assign_ne. congruence.
  - eexists. split; [reflexivity | apply assign_keys].
Qed.

Lemma writesOnly_bind {A B} (c : M A) (k : A -> M B) (paths : list string) :
  writesOnly c paths -> (forall a, writesOnly (k a) paths) -> writesOnly (bind c k) paths.
Proof.
  intros Hc Hk st p Hp. unfold bind. specialize (Hc st p Hp).
  destruct (c st) as [[a|e] st1]; cbn [snd] in *; [|exact Hc].
  now rewrite (Hk a st1 p Hp).
Qed.

Lemma writesOnly_try_catch {A} (body : M A) (handler : error -> M A) (paths : list string) :
  writesOnly body paths -> (forall e, writesOnly (handler e) paths) ->
  writesOnly (try_catch body handler) paths.
Proof.
  intros Hb Hh st p Hp. unfold try_catch. specialize (Hb st p Hp).
  destruct (body st) as [[a|e] st1]; cbn [snd] in *; [exact Hb|].
  now rewrite (Hh e st1 p Hp).
Qed.

Lemma writesOnly_lift {A} (o : outcome A) paths : writesOnly (lift o) paths.
Proof. now intros st p _. Qed.

Lemma writesOnly_ret {A} (a : A) paths : writesOnly (ret a) paths.
Proof. now intros st p _. Qed.

Lemma writesOnly_throw {A} (e : error) paths : writesOnly (throw (A := A) e) paths.
Proof. now intros st p _. Qed.

Lemma writesOnly_log_debug (msg : string) paths : writesOnly (log_debug msg) paths.
Proof. now intros st p _. Qed.

Lemma writesOnly_log_warn (msg : string) (cause : option error) paths :
  writesOnly (log_warn msg cause) paths.
Proof. now intros st p _. Qed.

Lemma writesOnly_existsSync (q : string) paths : writesOnly (existsSync q) paths.
Proof. now intros st p _. Qed.

Lemma writesOnly_readFile (q : string) paths : writesOnly (readFile q) paths.
Proof. intros st p _. unfold readFile. now destruct (fs st !! q) as [[?|]|]. Qed.

Lemma writesOnly_writeFile (q content : string) paths :
  q ∈ paths -> writesOnly (writeFile q content) paths.
Proof.
  intros Hq st p Hp. unfold writeFile.
  destruct (fs st !! path_dirname q) as [[?|]|]; [reflexivity| |reflexivity].
  destruct (fs st !! q) as [[?|]|]; cbn [snd fs with_fs]; try reflexivity;
    apply lookup_insert_ne; intros ->; contradiction.
Qed.

Lemma writesOnly_unlinkSync (q : string) paths :
  q ∈ paths -> writesOnly (unlinkSync q) paths.
Proof.
  intros Hq st p Hp. unfold unlinkSync.
  destruct (fs st !! q) as [[?|]|]; cbn [snd fs with_fs]; try reflexivity.
  apply lookup_delete_ne. intros ->. contradiction.
Qed.

Lemma writesOnly_weaken {A} (c : M A) (paths paths' : list string) :
  writesOnly c paths -> paths ⊆ paths' -> writesOnly c paths'.
Proof. intros Hc Hsub st p Hp. apply Hc. intros Hin. apply Hp, Hsub, Hin. Qed.

End SourceMapWrites.

Ltac frame :=
  repeat first
    [ apply writesOnly_bind; [|intros ?]
    | apply writesOnly_try_catch; [|intros ?]
    | apply writesOnly_lift | apply writesOnly_ret | apply writesOnly_throw
    | apply writesOnly_log_debug | apply writesOnly_log_warn
    | apply writesOnly_existsSync | apply writesOnly_readFile
    | apply writesOnly_writeFile | apply writesOnly_unlinkSync
    | match goal with
      | |- writesOnly (match ?x with _ => _ end) _ => destruct x
      | |- writesOnly (if ?b then _ else _) _ => destruct b
      end ].

Section SourceMapFrame.
Context {P : Platform}.

Lemma patchSourcemap_writesOnly (src dest : string) :
  writesOnly (patchSourcemap src dest) [dest].
Proof. unfold patchSourcemap, readJson. frame. apply list_elem_of_here. Qed.

Lemma addSourcemap_writesOnly (src dest : string) (copyFromSrc : bool) :
  writesOnly (addSourcemap src dest copyFromSrc) [dest; dest +:+ ".map"].
Proof.
  unfold addSourcemap, addSourcemap_try, createIdentitySourcemap, identityGenerator.
  frame.
  - apply list_elem_of_further, list_elem_of_here.
  - apply list_elem_of_here.
Qed.

(** X9: [patchSourcemap] changes no file but [dest]; the source map it
    reads stays as it is unless it is [dest] itself. *)
Theorem patchSourcemap_keeps_other_files (src dest p : string) (st : state) :
  p <> dest ->
  fs (snd (patchSourcemap src dest st)) !! p = fs st !! p.
Proof.
  intros Hp. apply patchSourcemap_writesOnly.
  intros Hin. apply list_elem_of_singleton in Hin. contradiction.
Qed.

(** X10: [addSourcemap] changes no file but [dest] and [dest.map], also
    when it fails half-way; with [copyFromSrc] the source file is read and
    never written. *)
Theorem addSourcemap_keeps_other_files (src dest p : string) (copyFromSrc : bool)
    (st : state) :
  p <> dest ->
  p <> dest +:+ ".map" ->
  fs (snd (addSourcemap src dest copyFromSrc st)) !! p = fs st !! p.
Proof.
  intros Hp Hm. apply addSourcemap_writesOnly.
  intros Hin. apply elem_of_cons in Hin as [-> | Hin]; [contradiction|].
  apply list_elem_of_singleton in Hin. contradiction.
Qed.

End SourceMapFrame.

Lemma patchSourcemap_keeps_other_files_witness :
  "/work/build/lib.js.map" <> "/run/iobroker.test/build/lib.js.map" /\
  fs (snd (patchSourcemap (P := posix) "/work/build/lib.js.map"
             "/run/iobroker.test/build/lib.js.map" initial)) !! "/work/build/lib.js.map"
  = fs initial !! "/work/build/lib.js.map".
Proof.
  assert (Hne : "/work/build/lib.js.map" <> "/run/iobroker.test/build/lib.js.map")
    by discriminate.
  split; [exact Hne|].
  exact (@patchSourcemap_keeps_other_files posix "/work/build/lib.js.map"
           "/run/iobroker.test/build/lib.js.map" "/work/build/lib.js.map" initial Hne).
Defined.

Lemma addSourcemap_keeps_other_files_witness :
  fs (snd (addSourcemap (P := posix) "/work/main.js" "/run/iobroker.test/main.js" true
             initial)) !! "/work/main.js"
  = fs initial !! "/work/main.js".
Proof.
  apply (@addSourcemap_keeps_other_files posix "/work/main.js" "/run/iobroker.test/main.js"
           "/work/main.js" true initial); discriminate.
Defined.

(** ** What the source-map functions leave behind *)

Lemma length_append (a b : string) :
  String.length (a +:+ b) = String.length a + String.length b.
Proof.
  induction a as [|c a IH]; [reflexivity|].
  change (String c a +:+ b) with (String c (a +:+ b)). cbn [String.length].
  now rewrite IH.
Qed.

Lemma append_map_ne (s : string) : s <> s +:+ ".map".
Proof.
  intros H. apply (f_equal String.length) in H. rewrite length_append in H.
  cbn in H. lia.
Qed.

Section SourceMapOutcomes.
Context {P : Platform}.

(** X11: for a version-3 document and a destination that can be written,
    [patchSourcemap] writes the document with its new source root to [dest],
    logs [Patched <dest> from <src>] and changes nothing else. *)
Theorem patchSourcemap_success (src dest text : string) (data : json number)
    (version : option (json number)) (st : state) :
  fs st !! src = Some (File text) ->
  JSON_parse text = inr data ->
  getProperty data "version" = Ok version ->
  isThree version = true ->
  fs st !! path_dirname dest = Some Dir ->
  fs st !! dest <> Some Dir ->
  patchSourcemap src dest st
  = (Ok tt,
     with_log (log st ++ [LogDebug ("Patched " +:+ dest +:+ " from " +:+ src)])
       (with_fs (<[dest := File (JSON_stringify (patchDocument src data))]> (fs st)) st)).
Proof.
  intros Hsrc Hparse Hv H3 Hdir Hdest. run. rewrite Hsrc, Hparse, Hv, H3.
  cbn [negb]. rewrite Hdir.
  destruct (fs st !! dest) as [[?|]|]; [reflexivity | congruence | reflexivity].
Qed.

(** The map that [createIdentitySourcemap] makes of a text. *)
Lemma createIdentitySourcemap_lexes (filename text : string) (st : state) :
  fs st !! filename = Some (File text) ->
  lexes (acorn_tokenizer text) = true ->
  Forall (fun t => is_Some (loc t)) (lexicalTokens (acorn_tokenizer text)) ->
  createIdentitySourcemap filename st
  = (Ok (generator_toJSON
           {| gen_file := filename;
              gen_mappings := tokenMappings filename (lexicalTokens (acorn_tokenizer text)) |}),
     st).
Proof.
  intros Hread Hlex Hloc. run. rewrite Hread.
  now rewrite (addTokenMappings_lexes _ _ _ Hlex Hloc).
Qed.

Lemma createIdentitySourcemap_syntax_error (filename text : string) (st : state) :
  fs st !! filename = Some (File text) ->
  lexes (acorn_tokenizer text) = false ->
  Forall (fun t => is_Some (loc t)) (lexicalTokens (acorn_tokenizer text)) ->
  exists msg, createIdentitySourcemap filename st = (Throw (SyntaxError msg), st).
Proof.
  intros Hread Hlex Hloc.
  destruct (addTokenMappings_syntax_error filename _ (newSourceMapGenerator filename)
              Hlex Hloc) as [msg Hmsg].
  exists msg. run. rewrite Hread. now rewrite Hmsg.
Qed.

(** X12: when the source tokenizes and both files can be written,
    [addSourcemap] leaves the identity map in [dest.map], and in [dest] the
    content it read (from [src] with [copyFromSrc], else from [dest]) with
    the reference to the map; it logs [Created <dest>.map from <src>]. *)
Theorem addSourcemap_success (src dest text fileContent : string) (copyFromSrc : bool)
    (st : state) :
  let mapFile := dest +:+ ".map" in
  let data :=
    generator_toJSON
      {| gen_file := replaceBackslashes src;
         gen_mappings := tokenMappings (replaceBackslashes src)
                           (lexicalTokens (acorn_tokenizer text)) |} in
  let withMap := <[mapFile := File (JSON_stringify data)]> (fs st) in
  fs st !! replaceBackslashes src = Some (File text) ->
  lexes (acorn_tokenizer text) = true ->
  Forall (fun t => is_Some (loc t)) (lexicalTokens (acorn_tokenizer text)) ->
  fs st !! path_dirname mapFile = Some Dir ->
  fs st !! mapFile <> Some Dir ->
  withMap !! (if copyFromSrc then src else dest) = Some (File fileContent) ->
  withMap !! path_dirname dest = Some Dir ->
  withMap !! dest <> Some Dir ->
  addSourcemap src dest copyFromSrc st
  = (Ok tt,
     with_log (log st ++ [LogDebug ("Created " +:+ mapFile +:+ " from " +:+ src)])
       (with_fs (<[dest := File (updatedContent fileContent (path_basename mapFile))]>
                   withMap) st)).
Proof.
  intros mapFile data withMap Hread Hlex Hloc Hdir Hmap Hcontent Hdir2 Hdest.
  unfold addSourcemap, addSourcemap_try, try_catch, bind.
  rewrite (createIdentitySourcemap_lexes _ _ _ Hread Hlex Hloc).
  fold mapFile data. unfold writeFile at 1. rewrite Hdir.
  assert (Hw : match fs st !! mapFile with
               | Some Dir => (Throw (ErrnoException EISDIR mapFile), st)
               | _ => (Ok tt, with_fs withMap st)
               end = (Ok tt, with_fs withMap st))
    by (destruct (fs st !! mapFile) as [[?|]|]; [reflexivity | congruence | reflexivity]).
  fold withMap. rewrite Hw.
  unfold readFile, writeFile, log_debug. cbn [fs with_fs].
  rewrite Hcontent. cbn [fs with_fs]. rewrite Hdir2.
  destruct (withMap !! dest) as [[?|]|]; [reflexivity | congruence | reflexivity].
Qed.

(** X13: called on a destination that is not there (as [copySourcemaps]
    does, with [copyFromSrc] off, for a source file that was never
    installed), [addSourcemap] has written the map before it fails to read
    the file: the map stays behind without its file, and the failure is a
    warning. *)
Theorem addSourcemap_orphan_map (src dest text : string) (st : state) :
  let mapFile := dest +:+ ".map" in
  let data :=
    generator_toJSON
      {| gen_file := replaceBackslashes src;
         gen_mappings := tokenMappings (replaceBackslashes src)
                           (lexicalTokens (acorn_tokenizer text)) |} in
  fs st !! replaceBackslashes src = Some (File text) ->
  lexes (acorn_tokenizer text) = true ->
  Forall (fun t => is_Some (loc t)) (lexicalTokens (acorn_tokenizer text)) ->
  fs st !! path_dirname mapFile = Some Dir ->
  fs st !! mapFile <> Some Dir ->
  fs st !! dest = None ->
  addSourcemap src dest false st
  = (Ok tt,
     with_log (log st ++ [LogWarn ("Couldn't reverse map for " +:+ src +:+ ": ")
                                  (Some (ErrnoException ENOENT dest))])
       (with_fs (<[mapFile := File (JSON_stringify data)]> (fs st)) st)).
Proof.
  intros mapFile data Hread Hlex Hloc Hdir Hmap Hdest.
  unfold addSourcemap, addSourcemap_try, try_catch, bind.
  rewrite (createIdentitySourcemap_lexes _ _ _ Hread Hlex Hloc).
  fold mapFile data. unfold writeFile at 1. rewrite Hdir.
  set (withMap := <[mapFile := File (JSON_stringify data)]> (fs st)).
  assert (Hw : match fs st !! mapFile with
               | Some Dir => (Throw (ErrnoException EISDIR mapFile), st)
               | _ => (Ok tt, with_fs withMap st)
               end = (Ok tt, with_fs withMap st))
    by (destruct (fs st !! mapFile) as [[?|]|]; [reflexivity | congruence | reflexivity]).
  rewrite Hw. unfold readFile, log_warn. cbn [fs with_fs].
  assert (Hnone : withMap !! dest = None).
  { unfold withMap. rewrite lookup_insert_ne; [exact Hdest|].
    intros E. symmetry in E. exact (append_map_ne dest E). }
  now rewrite Hnone.
Qed.

(** A text with a lexical error gets no map, and [addSourcemap] then
    writes nothing at all: with [copyFromSrc] the new content of the file is
    not copied to the destination either. *)
Lemma addSourcemap_syntax_error_writes_nothing (src dest text : string)
    (copyFromSrc : bool) (st : state) :
  fs st !! replaceBackslashes src = Some (File text) ->
  lexes (acorn_tokenizer text) = false ->
  Forall (fun t => is_Some (loc t)) (lexicalTokens (acorn_tokenizer text)) ->
  exists msg,
    addSourcemap src dest copyFromSrc st
    = (Ok tt,
       with_log (log st ++ [LogWarn ("Couldn't reverse map for " +:+ src +:+ ": ")
                                    (Some (SyntaxError msg))]) st).
Proof.
  intros Hread Hlex Hloc.
  destruct (createIdentitySourcemap_syntax_error _ _ st Hread Hlex Hloc) as [msg Hmsg].
  exists msg. unfold addSourcemap, addSourcemap_try, try_catch, bind.
  now rewrite Hmsg.
Qed.

End SourceMapOutcomes.

Lemma patchSourcemap_success_witness :
  patchSourcemap (P := posix) "/work/build/lib.js.map" "/run/iobroker.test/build/lib.js.map"
    initial
  = (Ok tt,
     with_log [LogDebug "Patched /run/iobroker.test/build/lib.js.map from /work/build/lib.js.map"]
       (with_fs (<["/run/iobroker.test/build/lib.js.map" :=
                     File (posix_stringify
                             (patchDocument (P := posix) "/work/build/lib.js.map"
                                document_v3))]> tree) initial)).
Proof.
  apply (@patchSourcemap_success posix "/work/build/lib.js.map"
           "/run/iobroker.test/build/lib.js.map" (posix_stringify document_v3)
           document_v3 (Some (JNumber 3)) initial).
  - vm_compute. reflexivity.
  - vm_compute. reflexivity.
  - reflexivity.
  - reflexivity.
  - vm_compute. reflexivity.
  - vm_compute. discriminate.
Defined.

Lemma addSourcemap_success_witness :
  fs (snd (addSourcemap (P := posix) "/work/main.js" "/run/iobroker.test/main.js" true
             initial)) !! "/run/iobroker.test/main.js"
  = Some (File ("let x" +:+ CRLF +:+ "x" +:+ CRLF +:+ "//# sourceMappingURL=main.js.map")).
Proof.
  rewrite (@addSourcemap_success posix "/work/main.js" "/run/iobroker.test/main.js"
             ("let x" +:+ CRLF +:+ "x") ("let x" +:+ CRLF +:+ "x") true initial).
  - vm_compute. reflexivity.
  - vm_compute. reflexivity.
  - reflexivity.
  - repeat (constructor; [eexists; reflexivity|]). constructor.
  - vm_compute. reflexivity.
  - vm_compute. discriminate.
  - vm_compute. reflexivity.
  - vm_compute. reflexivity.
  - vm_compute. discriminate.
Defined.

Lemma addSourcemap_orphan_map_witness :
  let st := snd (addSourcemap (P := posix) "/work/main.js" "/run/iobroker.test/main.js"
                   false initial) in
  fs st !! "/run/iobroker.test/main.js" = None /\
  is_Some (fs st !! "/run/iobroker.test/main.js.map").
Proof.
  intros st. subst st.
  rewrite (@addSourcemap_orphan_map posix "/work/main.js" "/run/iobroker.test/main.js"
             ("let x" +:+ CRLF +:+ "x") initial).
  - vm_compute. split; [reflexivity | eauto].
  - vm_compute. reflexivity.
  - reflexivity.
  - repeat (constructor; [eexists; reflexivity|]). constructor.
  - vm_compute. reflexivity.
  - vm_compute. discriminate.
  - vm_compute. reflexivity.
Defined.

(** ** More on the handlers of [startFileSync] *)

Section FileSyncExtras.
Context {P : Platform}.
Variable this : DevServer.
Variable destinationDir : string.

Lemma syncFile_writesOnly (filename : string) :
  writesOnly (syncFile this destinationDir filename)
    [inDest destinationDir filename; inDest destinationDir filename +:+ ".map"].
Proof.
  unfold syncFile.
  apply writesOnly_try_catch; [|intros; apply writesOnly_log_warn].
  apply writesOnly_bind; [apply writesOnly_log_debug | intros _].
  destruct (endsWith filename ".map").
  - eapply writesOnly_weaken; [apply patchSourcemap_writesOnly|].
    intros q Hq. apply list_elem_of_singleton in Hq as ->. apply list_elem_of_here.
  - apply writesOnly_bind; [apply writesOnly_existsSync | intros hasMap].
    destruct (negb hasMap); [apply addSourcemap_writesOnly|].
    unfold copyFile. frame. apply list_elem_of_here.
Qed.

Lemma syncAll_writesOnly (filenames paths : list string) :
  (forall f, f ∈ filenames -> writesOnly (syncFile this destinationDir f) paths) ->
  writesOnly (syncAll this destinationDir filenames) paths.
Proof.
  induction filenames as [|f rest IH]; intros Hall; cbn [syncAll];
    [apply writesOnly_ret|].
  apply writesOnly_bind.
  - apply Hall, list_elem_of_here.
  - intros _. apply IH. intros g Hg. apply Hall, list_elem_of_further, Hg.
Qed.

Lemma onUnlink_writesOnly (filename : string) :
  writesOnly (onUnlink destinationDir filename)
    [inDest destinationDir filename; inDest destinationDir (filename +:+ ".map")].
Proof.
  unfold onUnlink. frame.
  - apply list_elem_of_here.
  - apply list_elem_of_further, list_elem_of_here.
Qed.

Lemma keeps_onUnlink (filename : string) :
  keeps_session (onUnlink destinationDir filename).
Proof.
  unfold onUnlink. apply keeps_bind; [apply keeps_unlinkSync | intros _].
  apply keeps_bind; [apply keeps_existsSync | intros mapExists].
  destruct mapExists; [apply keeps_unlinkSync | apply keeps_ret].
Qed.

(** What a handler does to the file system and to the started calls when
    none is outstanding. *)
Lemma handle_frame (ev : event) (p : string) (st : state) :
  pending st = [] ->
  p ∉ touched destinationDir ev ->
  fs (snd (handle destinationDir ev st)) !! p = fs st !! p /\
  (forall f, f ∈ pending (snd (handle destinationDir ev st)) ->
     ev = Add f \/ ev = Change f) /\
  (forall e, fst (handle destinationDir ev st) = Throw e ->
     pending (snd (handle destinationDir ev st)) = []).
Proof.
  intros Hidle Hp.
  assert (Hnone : forall (o : outcome unit) (st1 : state),
            fs st1 = fs st -> pending st1 = [] ->
            fs (snd (o, st1)) !! p = fs st !! p /\
            (forall f, f ∈ pending (snd (o, st1)) -> ev = Add f \/ ev = Change f) /\
            (forall e, fst (o, st1) = Throw e -> pending (snd (o, st1)) = [])).
  { intros o st1 Hfs Hnil. cbn [fst snd]. rewrite Hfs, Hnil.
    split; [reflexivity|]. split; [|reflexivity].
    intros f Hf. apply elem_of_nil in Hf. contradiction. }
  assert (Hone : forall f, ev = Add f \/ ev = Change f ->
            fs (snd (startSyncFile f st)) !! p = fs st !! p /\
            (forall g, g ∈ pending (snd (startSyncFile f st)) ->
               ev = Add g \/ ev = Change g) /\
            (forall e, fst (startSyncFile f st) = Throw e ->
               pending (snd (startSyncFile f st)) = [])).
  { intros f Hev. unfold startSyncFile. cbn. rewrite Hidle.
    split; [reflexivity|]. split; [|discriminate].
    intros g Hg. apply list_elem_of_singleton in Hg as ->. exact Hev. }
  destruct ev as [|f|f|f]; cbn [handle].
  - unfold onReady. now apply Hnone.
  - unfold onAdd. destruct (ready st); [apply Hone; now left|].
    destruct (endsWith f "map"); cbn [negb]; [now apply Hnone|].
    cbv [bind existsSync]. destruct (bool_decide _); now apply Hnone.
  - unfold onChange. destruct (includes (ignoreFiles st) f); cbn [negb];
      [now apply Hnone | apply Hone; now right].
  - destruct (keeps_onUnlink f st) as (_ & _ & Hpend). rewrite Hpend, Hidle.
    split; [|split].
    + apply onUnlink_writesOnly. intros Hin. apply Hp. cbn [touched].
      apply elem_of_cons in Hin as [-> | Hin]; [apply list_elem_of_here|].
      apply list_elem_of_singleton in Hin as ->.
      do 2 apply list_elem_of_further. apply list_elem_of_here.
    + intros g Hg. apply elem_of_nil in Hg. contradiction.
    + reflexivity.
Qed.

Lemma deliver_frame (ev : event) (p : string) (st : state) :
  pending st = [] ->
  p ∉ touched destinationDir ev ->
  fs (snd (deliver this destinationDir ev st)) !! p = fs st !! p /\
  pending (snd (deliver this destinationDir ev st)) = [].
Proof.
  intros Hidle Hp.
  destruct (handle_frame ev p st Hidle Hp) as (Hfs & Hpend & Hthrow).
  unfold deliver, bind.
  destruct (handle destinationDir ev st) as [[[]|e] st1]; cbn [fst snd] in *.
  - destruct (settle_session this destinationDir st1) as (_ & _ & _ & Hnil).
    split; [|exact Hnil]. rewrite <- Hfs. unfold settle.
    assert (Hsync : forall f, f ∈ pending st1 ->
              writesOnly (syncFile this destinationDir f) (touched destinationDir ev)).
    { intros f Hf. eapply writesOnly_weaken; [apply syncFile_writesOnly|].
      intros q Hq.
      destruct (Hpend f Hf) as [-> | ->]; cbn [touched];
        (apply elem_of_cons in Hq as [-> | Hq]; [apply list_elem_of_here|]);
        apply list_elem_of_singleton in Hq as ->;
        apply list_elem_of_further, list_elem_of_here. }
    exact (syncAll_writesOnly (pending st1) (touched destinationDir ev) Hsync
             (with_pending [] st1) p Hp).
  - split; [exact Hfs | now apply (Hthrow e)].
Qed.

(** X14: however many events are delivered, a path that is neither the
    destination file of one of them nor the map beside such a file keeps
    what it holds: the working tree and every other file are out of reach of
    the synchronisation. *)
Theorem deliverAll_keeps_other_files (evs : list event) (p : string) (st : state) :
  pending st = [] ->
  Forall (fun ev => p ∉ touched destinationDir ev) evs ->
  fs (snd (deliverAll this destinationDir evs st)) !! p = fs st !! p.
Proof.
  intros Hidle Hall. revert st Hidle.
  induction Hall as [|ev evs Hp _ IH]; intros st Hidle; [reflexivity|].
  cbn [deliverAll]. unfold bind.
  destruct (deliver_frame ev p st Hidle Hp) as (Hfs & Hnil).
  destruct (deliver this destinationDir ev st) as [[[]|e] st1]; cbn [snd] in *;
    [|exact Hfs].
  now rewrite (IH st1 Hnil).
Qed.

(** X15: a file that is no map and has a map beside it in the working tree
    is copied as it is: the destination gets the bytes of the source, no
    reference line is added and no map is written; the only log line is
    [Synchronizing <filename>]. *)
Theorem syncFile_plain_copy (filename content : string) (st : state) :
  endsWith filename ".map" = false ->
  is_Some (fs st !! inSrc this (filename +:+ ".map")) ->
  fs st !! inSrc this filename = Some (File content) ->
  fs st !! path_dirname (inDest destinationDir filename) = Some Dir ->
  fs st !! inDest destinationDir filename <> Some Dir ->
  syncFile this destinationDir filename st
  = (Ok tt,
     with_log (log st ++ [LogDebug ("Synchronizing " +:+ filename)])
       (with_fs (<[inDest destinationDir filename := File content]> (fs st)) st)).
Proof.
  intros Hmap Hsibling Hsrc Hdir Hdest.
  unfold syncFile. run. rewrite Hmap. cbn [fs with_fs with_log].
  rewrite bool_decide_eq_true_2 by exact Hsibling. cbn [negb fs with_fs with_log].
  rewrite Hsrc. cbn [fs with_fs with_log]. rewrite Hdir.
  destruct (fs st !! inDest destinationDir filename) as [[?|]|];
    [reflexivity | congruence | reflexivity].
Qed.

(** X16: when that copy fails because the source file is gone, [syncFile]
    logs [Couldn't sync <filename>] and returns; nothing is written. *)
Theorem syncFile_copy_failure (filename : string) (st : state) :
  endsWith filename ".map" = false ->
  is_Some (fs st !! inSrc this (filename +:+ ".map")) ->
  fs st !! inSrc this filename = None ->
  syncFile this destinationDir filename st
  = (Ok tt,
     with_log (log st ++ [LogDebug ("Synchronizing " +:+ filename);
                          LogWarn ("Couldn't sync " +:+ filename) None]) st).
Proof.
  intros Hmap Hsibling Hsrc.
  unfold syncFile. run. rewrite Hmap. cbn [fs with_fs with_log].
  rewrite bool_decide_eq_true_2 by exact Hsibling. cbn [negb fs with_fs with_log].
  rewrite Hsrc. cbn [fs with_fs with_log log]. now rewrite <- app_assoc.
Qed.

(** X17: a changed file without a map beside it whose text has a lexical
    error is not synchronised at all: [syncFile] logs the warning of
    [addSourcemap] and leaves the destination as it was, old content
    included. *)
Theorem syncFile_syntax_error_no_copy (filename text : string) (st : state) :
  endsWith filename ".map" = false ->
  fs st !! inSrc this (filename +:+ ".map") = None ->
  fs st !! replaceBackslashes (inSrc this filename) = Some (File text) ->
  lexes (acorn_tokenizer text) = false ->
  Forall (fun t => is_Some (loc t)) (lexicalTokens (acorn_tokenizer text)) ->
  exists msg,
    syncFile this destinationDir filename st
    = (Ok tt,
       with_log (log st ++ [LogDebug ("Synchronizing " +:+ filename);
                            LogWarn ("Couldn't reverse map for "
                                     +:+ inSrc this filename +:+ ": ")
                                    (Some (SyntaxError msg))]) st).
Proof.
  intros Hmap Hsibling Hread Hlex Hloc.
  pose (st1 := with_log (log st ++ [LogDebug ("Synchronizing " +:+ filename)]) st).
  destruct (addSourcemap_syntax_error_writes_nothing (inSrc this filename)
              (inDest destinationDir filename) text true st1 Hread Hlex Hloc)
    as [msg Hmsg].
  exists msg. unfold syncFile, try_catch, bind, log_debug, existsSync.
  fold st1. rewrite Hmap. cbn [fs with_log]. fold st1.
  change (fs st1) with (fs st). rewrite Hsibling.
  rewrite bool_decide_eq_false_2 by (intros [? ?]; discriminate). cbn [negb].
  rewrite Hmsg. unfold st1. cbn [log with_log]. now rewrite <- app_assoc.
Qed.

Lemma handle_after_ready (ev : event) (st : state) :
  ready st = true ->
  ready (snd (handle destinationDir ev st)) = true /\
  ignoreFiles (snd (handle destinationDir ev st)) = ignoreFiles st.
Proof.
  intros Hready. destruct ev as [|f|f|f]; cbn [handle].
  - now cbn.
  - unfold onAdd. rewrite Hready. now cbn.
  - unfold onChange. now destruct (includes (ignoreFiles st) f).
  - destruct (keeps_onUnlink f st) as (-> & -> & _). now split.
Qed.

Lemma deliver_after_ready (ev : event) (st : state) :
  ready st = true ->
  ready (snd (deliver this destinationDir ev st)) = true /\
  ignoreFiles (snd (deliver this destinationDir ev st)) = ignoreFiles st.
Proof.
  intros Hready. destruct (handle_after_ready ev st Hready) as (Hr & Hi).
  unfold deliver, bind.
  destruct (handle destinationDir ev st) as [[[]|e] st1]; cbn [snd] in *; [|now split].
  destruct (settle_session this destinationDir st1) as (_ & -> & -> & _). now split.
Qed.

(** X18: once ready, always ready, and the list of excluded files is
    closed: no event after ready adds a path to [ignoreFiles] or takes one
    out. *)
Theorem ignoreFiles_frozen_after_ready (evs : list event) (st : state) :
  ready st = true ->
  ready (snd (deliverAll this destinationDir evs st)) = true /\
  ignoreFiles (snd (deliverAll this destinationDir evs st)) = ignoreFiles st.
Proof.
  revert st. induction evs as [|ev evs IH]; intros st Hready; [now split|].
  cbn [deliverAll]. unfold bind.
  destruct (deliver_after_ready ev st Hready) as (Hr & Hi).
  destruct (deliver this destinationDir ev st) as [[[]|e] st1]; cbn [snd] in *;
    [|now split].
  destruct (IH st1 Hr) as (Hr' & Hi'). split; [exact Hr' | congruence].
Qed.

Lemma deliver_add_before_ready (filename : string) (st : state) :
  ready st = false ->
  pending st = [] ->
  fst (deliver this destinationDir (Add filename) st) = Ok tt /\
  fs (snd (deliver this destinationDir (Add filename) st)) = fs st /\
  ready (snd (deliver this destinationDir (Add filename) st)) = false /\
  pending (snd (deliver this destinationDir (Add filename) st)) = [].
Proof.
  intros Hready Hidle.
  assert (Hh : exists st1,
            onAdd destinationDir filename st = (Ok tt, st1) /\
            fs st1 = fs st /\ ready st1 = false /\ pending st1 = []).
  { unfold onAdd. rewrite Hready.
    destruct (endsWith filename "map"); cbn [negb].
    - eexists. split; [reflexivity|]. cbn. auto.
    - cbv [bind existsSync].
      destruct (bool_decide _); eexists; (split; [reflexivity|]); cbn; auto. }
  destruct Hh as (st1 & Hh & Hfs & Hr & Hp).
  unfold deliver, bind. cbn [handle]. rewrite Hh, (settle_idle _ _ _ Hp). cbn. auto.
Qed.

(** X19: the initial scan copies nothing: add events delivered before ready
    leave the whole file system as it is, whatever the files and however
    many. *)
Theorem initial_scan_writes_nothing (filenames : list string) (st : state) :
  ready st = false ->
  pending st = [] ->
  fst (deliverAll this destinationDir (map Add filenames) st) = Ok tt /\
  fs (snd (deliverAll this destinationDir (map Add filenames) st)) = fs st /\
  ready (snd (deliverAll this destinationDir (map Add filenames) st)) = false.
Proof.
  revert st. induction filenames as [|f rest IH]; intros st Hready Hidle; [now split|].
  cbn [map deliverAll]. unfold bind.
  destruct (deliver_add_before_ready f st Hready Hidle) as (Hok & Hfs & Hr & Hp).
  destruct (deliver this destinationDir (Add f) st) as [[[]|e] st1]; cbn [fst snd] in *;
    [|discriminate Hok].
  destruct (IH st1 Hr Hp) as (Hok' & Hfs' & Hr'). split; [exact Hok'|].
  split; [congruence | exact Hr'].
Qed.

(** X20: when the unlink handler returns, the destination has neither the
    file nor its map. *)
Theorem onUnlink_postcondition (filename : string) (st st' : state) :
  onUnlink destinationDir filename st = (Ok tt, st') ->
  fs st' !! inDest destinationDir filename = None /\
  fs st' !! inDest destinationDir (filename +:+ ".map") = None.
Proof.
  cbv [onUnlink bind unlinkSync existsSync ret].
  destruct (fs st !! inDest destinationDir filename) as [[content|]|]; try discriminate.
  cbn [fs with_fs].
  destruct (delete (inDest destinationDir filename) (fs st)
              !! inDest destinationDir (filename +:+ ".map")) as [[m|]|] eqn:Hm.
  - rewrite bool_decide_eq_true_2 by eauto. cbn [fs with_fs]. rewrite Hm.
    intros [= <-]. cbn [fs with_fs]. split; [|apply lookup_delete_eq].
    rewrite lookup_delete. case_decide; [reflexivity | apply lookup_delete_eq].
  - rewrite bool_decide_eq_true_2 by eauto. cbn [fs with_fs]. rewrite Hm. discriminate.
  - rewrite bool_decide_eq_false_2 by (intros [? ?]; discriminate).
    intros [= <-]. cbn [fs with_fs]. split; [apply lookup_delete_eq | exact Hm].
Qed.

(** X21: a file that the initial scan excluded was never copied, so when it
    is deleted in the working tree the unlink handler finds nothing to
    delete and throws [ENOENT]. *)
Theorem unlink_of_excluded_file_throws (filename : string) (st : state) :
  ready st = false ->
  pending st = [] ->
  endsWith filename "map" = false ->
  fs st !! inDest destinationDir filename = None ->
  deliverAll this destinationDir
    [Add filename; Ready; Change filename; Unlink filename] st
  = (Throw (ErrnoException ENOENT (inDest destinationDir filename)),
     with_ready true (with_ignoreFiles (ignoreFiles st ++ [filename]) st)).
Proof.
  intros Hready Hidle Hmap Hdest.
  set (st1 := with_ignoreFiles (ignoreFiles st ++ [filename]) st).
  set (st2 := with_ready true st1).
  assert (H1 : deliver this destinationDir (Add filename) st = (Ok tt, st1)).
  { unfold deliver, bind. cbn [handle].
    rewrite (onAdd_excludes _ _ _ Hready Hmap Hdest). now apply settle_idle. }
  assert (H2 : deliver this destinationDir Ready st1 = (Ok tt, st2)).
  { unfold deliver, bind. cbn [handle]. unfold onReady. now apply settle_idle. }
  assert (H3 : deliver this destinationDir (Change filename) st2 = (Ok tt, st2)).
  { unfold deliver, bind. cbn [handle]. rewrite onChange_excluded.
    - now apply settle_idle.
    - cbn. apply elem_of_app. right. apply list_elem_of_here. }
  assert (H4 : deliver this destinationDir (Unlink filename) st2
               = (Throw (ErrnoException ENOENT (inDest destinationDir filename)), st2)).
  { unfold deliver. cbn [handle]. cbv [onUnlink bind unlinkSync].
    change (fs st2) with (fs st). now rewrite Hdest. }
  cbn [deliverAll]. unfold bind at 1. rewrite H1.
  unfold bind at 1. rewrite H2. unfold bind at 1. rewrite H3.
  unfold bind. now rewrite H4.
Qed.

End FileSyncExtras.

(** ** More on the reference comment *)

Lemma dotStar_split (s run rest : string) :
  dotStar s = (run, rest) -> s = run +:+ rest.
Proof.
  revert run. induction s as [|c s IH]; intros run; cbn [dotStar].
  - now intros [= <- <-].
  - destruct (lineTerminatorAt (String c s)); [now intros [= <- <-]|].
    destruct (dotStar s) as [a b]. intros [= <- <-].
    change (String c a +:+ b) with (String c (a +:+ b)). now rewrite <- (IH a eq_refl).
Qed.

Lemma matchReferenceHere_Some (s run rest : string) :
  matchReferenceHere s = Some (run, rest) ->
  s = sourceMappingURL +:+ run +:+ rest /\ run <> "".
Proof.
  unfold matchReferenceHere.
  destruct (stripPrefix sourceMappingURL s) as [tail|] eqn:Hp; [|discriminate].
  apply stripPrefix_Some in Hp.
  destruct (dotStar tail) as [[|c r] after] eqn:Hd; [discriminate|].
  intros [= <- <-]. apply dotStar_split in Hd. split; [congruence | discriminate].
Qed.

(** A match of the expression cuts the text into what is before the
    reference, the reference and what is after it. *)
Lemma searchReference_Some (s before run after : string) :
  searchReference s = Some (before, run, after) ->
  s = before +:+ sourceMappingURL +:+ run +:+ after /\ run <> "".
Proof.
  revert before. induction s as [|c s IH]; intros before; cbn [searchReference].
  - destruct (matchReferenceHere "") as [[r a]|] eqn:Hm; [|discriminate].
    intros [= <- <- <-]. now apply matchReferenceHere_Some.
  - destruct (matchReferenceHere (String c s)) as [[r a]|] eqn:Hm.
    + intros [= <- <- <-]. now apply matchReferenceHere_Some.
    + destruct (searchReference s) as [[[b r] a]|]; [|discriminate].
      intros [= <- <- <-]. destruct (IH b eq_refl) as [-> Hne]. now split.
Qed.

Lemma getSubstitution_char (matched group1 before after t : string) (c : ascii) :
  c <> "$"%char ->
  getSubstitution matched group1 before after (String c t)
  = String c (getSubstitution matched group1 before after t).
Proof.
  intros Hc.
  destruct c as [[] [] [] [] [] [] [] []]; try reflexivity. now contradiction Hc.
Qed.

(** A template without [$] stands for itself. *)
Lemma getSubstitution_literal (matched group1 before after t : string) :
  contains t "$" = false ->
  getSubstitution matched group1 before after t = t.
Proof.
  induction t as [|c t IH]; [reflexivity|]. cbn [contains startsWith].
  intros H. apply orb_false_iff in H as [Hc Ht].
  assert (c <> "$"%char).
  { intros ->. cbn in Hc. destruct t; discriminate Hc. }
  rewrite getSubstitution_char by assumption. now rewrite (IH Ht).
Qed.

Lemma replaceReference_Some (fileContent filename before run after : string) :
  searchReference fileContent = Some (before, run, after) ->
  contains filename "$" = false ->
  replaceReference fileContent filename
  = before +:+ sourceMappingURL +:+ filename +:+ after.
Proof.
  intros Hs Hd. unfold replaceReference. rewrite Hs.
  change ("$1" +:+ filename) with (String "$" (String "1" filename)).
  assert (Hg : forall m g b a,
            getSubstitution m g b a (String "$" (String "1" filename))
            = g +:+ getSubstitution m g b a filename).
  { intros. now destruct filename as [|[[] [] [] [] [] [] [] []] ?]. }
  rewrite Hg, getSubstitution_literal by exact Hd. now rewrite append_assoc.
Qed.

Lemma append_cancel_r (a b c : string) : a +:+ c = b +:+ c -> a = b.
Proof.
  revert b. induction a as [|x a IH]; intros [|y b] H.
  - reflexivity.
  - apply (f_equal String.length) in H. rewrite !length_append in H. cbn in H. lia.
  - apply (f_equal String.length) in H. rewrite !length_append in H. cbn in H. lia.
  - change (String x (a +:+ c) = String y (b +:+ c)) in H.
    injection H as -> H. now rewrite (IH b H).
Qed.

Lemma append_cancel_l (a b c : string) : a +:+ b = a +:+ c -> b = c.
Proof.
  induction a as [|x a IH]; [trivial|].
  change (String x (a +:+ b) = String x (a +:+ c) -> b = c).
  intros [= H]. now apply IH.
Qed.

(** X22: a reference that names another file is replaced where it stands:
    the text before and after it is kept and nothing is appended (for a file
    name without [$], which [replace] would expand). *)
Theorem updatedContent_replaces_reference
    (fileContent filename before run after : string) :
  searchReference fileContent = Some (before, run, after) ->
  contains filename "$" = false ->
  run <> filename ->
  updatedContent fileContent filename
  = before +:+ sourceMappingURL +:+ filename +:+ after.
Proof.
  intros Hs Hd Hne. unfold updatedContent.
  rewrite (replaceReference_Some _ _ _ _ _ Hs Hd).
  destruct (searchReference_Some _ _ _ _ Hs) as [-> _].
  destruct (String.eqb _ _) eqn:E; [|reflexivity].
  apply String.eqb_eq in E.
  apply append_cancel_l, append_cancel_l, append_cancel_r in E. congruence.
Qed.

(** X23: a reference that already names the map is not recognised as one:
    the replacement changes nothing, the code takes the text for one without
    a reference, and a second reference line is appended. *)
Theorem updatedContent_duplicates_reference
    (fileContent filename before after : string) :
  searchReference fileContent = Some (before, filename, after) ->
  contains filename "$" = false ->
  updatedContent fileContent filename
  = fileContent
    +:+ (if endsWith fileContent LF then ""
         else if contains fileContent CRLF then CRLF else LF)
    +:+ sourceMappingURL +:+ filename.
Proof.
  intros Hs Hd. unfold updatedContent.
  rewrite (replaceReference_Some _ _ _ _ _ Hs Hd).
  destruct (searchReference_Some _ _ _ _ Hs) as [<- _].
  rewrite String.eqb_refl.
  destruct (endsWith fileContent LF); cbn [negb]; [reflexivity|].
  destruct (contains fileContent CRLF).
  - unfold CRLF. now rewrite !append_assoc.
  - now rewrite append_assoc.
Qed.

Lemma updatedContent_replaces_reference_witness :
  let fileContent := "x" +:+ LF +:+ "//# sourceMappingURL=old.map" +:+ LF +:+ "y" in
  searchReference fileContent = Some ("x" +:+ LF, "old.map", LF +:+ "y") /\
  updatedContent fileContent "main.js.map"
  = ("x" +:+ LF) +:+ sourceMappingURL +:+ "main.js.map" +:+ LF +:+ "y".
Proof.
  intros fileContent.
  assert (Hs : searchReference fileContent = Some ("x" +:+ LF, "old.map", LF +:+ "y"))
    by reflexivity.
  split; [exact Hs|].
  apply (updatedContent_replaces_reference fileContent "main.js.map" _ _ _ Hs);
    [reflexivity | discriminate].
Defined.

Lemma updatedContent_duplicates_reference_witness :
  let fileContent := "x" +:+ LF +:+ "//# sourceMappingURL=main.js.map" in
  searchReference fileContent = Some ("x" +:+ LF, "main.js.map", "") /\
  updatedContent fileContent "main.js.map"
  = fileContent +:+ LF +:+ "//# sourceMappingURL=main.js.map".
Proof.
  intros fileContent.
  assert (Hs : searchReference fileContent = Some ("x" +:+ LF, "main.js.map", ""))
    by reflexivity.
  split; [exact Hs|].
  exact (updatedContent_duplicates_reference fileContent "main.js.map" _ _ Hs eq_refl).
Defined.

(** ** Examples for the handlers *)

Lemma deliverAll_keeps_other_files_witness :
  fs (snd (deliverAll (P := posix) devServer adapterRunDir
             [Ready; Change "main.js"] initial)) !! "/work/main.js"
  = fs initial !! "/work/main.js".
Proof.
  apply (@deliverAll_keeps_other_files posix devServer adapterRunDir
           [Ready; Change "main.js"] "/work/main.js" initial); [reflexivity|].
  constructor; [apply not_elem_of_nil|]. constructor; [|constructor].
  vm_compute. intros H.
  repeat (apply elem_of_cons in H as [H | H]; [discriminate H|]).
  apply elem_of_nil in H. exact H.
Defined.

Lemma syncFile_plain_copy_witness :
  let st := with_fs (<["/work/build/lib.js" := File "lib"]> tree) initial in
  fs (snd (syncFile (P := posix) devServer adapterRunDir "build/lib.js" st))
    !! "/run/iobroker.test/build/lib.js" = Some (File "lib") /\
  fs (snd (syncFile (P := posix) devServer adapterRunDir "build/lib.js" st))
    !! "/run/iobroker.test/build/lib.js.map" = None.
Proof.
  intros st.
  rewrite (@syncFile_plain_copy posix devServer adapterRunDir "build/lib.js" "lib" st).
  - vm_compute. split; reflexivity.
  - reflexivity.
  - vm_compute. eauto.
  - vm_compute. reflexivity.
  - vm_compute. reflexivity.
  - vm_compute. discriminate.
Defined.

Lemma syncFile_copy_failure_witness :
  syncFile (P := posix) devServer adapterRunDir "build/lib.js" initial
  = (Ok tt,
     with_log [LogDebug "Synchronizing build/lib.js";
               LogWarn "Couldn't sync build/lib.js" None] initial).
Proof.
  apply (@syncFile_copy_failure posix devServer adapterRunDir "build/lib.js" initial).
  - reflexivity.
  - vm_compute. eauto.
  - vm_compute. reflexivity.
Defined.

Lemma syncFile_syntax_error_no_copy_witness :
  let st := with_fs (<["/work/bad.js" := File "let @"]> tree) initial in
  exists msg,
    syncFile (P := posix) devServer adapterRunDir "bad.js" st
    = (Ok tt,
       with_log [LogDebug "Synchronizing bad.js";
                 LogWarn "Couldn't reverse map for /work/bad.js: "
                         (Some (@SyntaxError posix msg))] st).
Proof.
  intros st.
  apply (@syncFile_syntax_error_no_copy posix devServer adapterRunDir "bad.js" "let @" st).
  - reflexivity.
  - vm_compute. reflexivity.
  - vm_compute. reflexivity.
  - reflexivity.
  - repeat (constructor; [eexists; reflexivity|]). constructor.
Defined.

Lemma ignoreFiles_frozen_after_ready_witness :
  let st := with_ignoreFiles ["main.js"] (with_ready true initial) in
  ready (snd (deliverAll (P := posix) devServer adapterRunDir
                [Add "build/lib.js.map"; Change "main.js"] st)) = true /\
  ignoreFiles (snd (deliverAll (P := posix) devServer adapterRunDir
                      [Add "build/lib.js.map"; Change "main.js"] st)) = ["main.js"].
Proof.
  intros st.
  exact (@ignoreFiles_frozen_after_ready posix devServer adapterRunDir
           [Add "build/lib.js.map"; Change "main.js"] st eq_refl).
Defined.

Lemma initial_scan_writes_nothing_witness :
  fs (snd (deliverAll (P := posix) devServer adapterRunDir
             (map Add ["main.js"; "build/lib.js.map"]) initial)) = fs initial.
Proof.
  exact (proj1 (proj2 (@initial_scan_writes_nothing posix devServer adapterRunDir
                         ["main.js"; "build/lib.js.map"] initial eq_refl eq_refl))).
Defined.

Lemma onUnlink_postcondition_witness :
  onUnlink (P := posix) adapterRunDir "main.js" installed = (Ok tt, initial) /\
  fs initial !! "/run/iobroker.test/main.js" = None /\
  fs initial !! "/run/iobroker.test/main.js.map" = None.
Proof.
  assert (Hrun : onUnlink (P := posix) adapterRunDir "main.js" installed = (Ok tt, initial))
    by (vm_compute; reflexivity).
  split; [exact Hrun|].
  exact (@onUnlink_postcondition posix adapterRunDir "main.js" installed initial Hrun).
Defined.

Lemma unlink_of_excluded_file_throws_witness :
  deliverAll (P := posix) devServer adapterRunDir
    [Add "main.js"; Ready; Change "main.js"; Unlink "main.js"] initial
  = (Throw (ErrnoException ENOENT "/run/iobroker.test/main.js"),
     with_ready true (with_ignoreFiles ["main.js"] initial)).
Proof.
  apply (@unlink_of_excluded_file_throws posix devServer adapterRunDir "main.js" initial).
  - reflexivity.
  - reflexivity.
  - reflexivity.
  - vm_compute. reflexivity.
Defined.
